(** * agent-max-desktop: icon extraction script and feature-flag models

    A shallow embedding of

    - [src/electron/main/scripts/extract-icon.py]: the function
      [extract_icon] and the command-line block under
      [if __name__ == '__main__'];
    - [src/api/models/feature_flags.py]: the two pydantic models
      [FeatureFlagsRolloutInfo] and [FeatureFlagsResponse].

    The script is glue over PyObjC's AppKit and Python's file objects.
    Both are outside the repository, so they enter the development as a
    [Host]: a record of oracles, one per call the script makes, each of
    which either returns or raises.  The script's own control flow, its
    [try]/[except] clauses, its writes to the output streams and to the
    file system are modelled explicitly.

    The script is modelled twice.  The first model takes every operation
    to raise instances of [Exception] only, every [print] to succeed and
    the output file to close in silence.  The second, [Full], lets a
    signal raise [KeyboardInterrupt] during any statement, lets the
    prints and the close fail, and runs as the first whenever none of
    this happens. *)

From Stdlib Require Import ZArith String Ascii List Bool Lia.
From stdpp Require Import base option gmap strings list pretty.

Local Open Scope string_scope.
Local Open Scope list_scope.

(** ** Python values the script manipulates *)

Module Py.

(** Exception classes that the modelled operations raise.  All of them
    derive from [Exception]; interpreter-level signals such as
    [KeyboardInterrupt], which derive from [BaseException] only, are
    not raised by any operation of the model. *)
Inductive ExnClass :=
| Exception
| ImportError
| ModuleNotFoundError
| OSError
| PermissionError
| FileNotFoundError
| TypeError
| AttributeError
| ValueError
| OverflowError
| RuntimeError
| ObjCError.

#[global] Instance ExnClass_eq_dec : EqDecision ExnClass.
Proof. solve_decision. Defined.

(** Method resolution order of a class, most specific first. *)
Definition mro (c : ExnClass) : list ExnClass :=
  match c with
  | Exception => [Exception]
  | ModuleNotFoundError => [ModuleNotFoundError; ImportError; Exception]
  | PermissionError => [PermissionError; OSError; Exception]
  | FileNotFoundError => [FileNotFoundError; OSError; Exception]
  | c => [c; Exception]
  end.

Definition issubclass (c d : ExnClass) : bool := bool_decide (d ∈ mro c).

(** An exception object: its class and what [str(e)] gives. *)
Record Exn := mkExn { exn_class : ExnClass; exn_str : string }.

Definition isinstance (e : Exn) (c : ExnClass) : bool :=
  issubclass (exn_class e) c.

(** Outcome of an operation that may raise. *)
Inductive Raises (A : Type) :=
| Ret (a : A)
| Raise (e : Exn).
Arguments Ret {A} a.
Arguments Raise {A} e.

Definition bytes := list Byte.byte.

(** The end-of-line that [print] appends. *)
Definition nl : string := String (ascii_of_nat 10) EmptyString.

End Py.
Import Py.

(** ** The process state the script can change *)

(** [fs] maps a path to the content of the regular file stored there;
    [written] lists, oldest first, every [f.write(data)] call that ran to
    completion, with the path of the file object; [stdout] and [stderr]
    hold the text printed so far. *)
Record World := mkWorld {
  fs : gmap string bytes;
  written : list (string * bytes);
  stdout : string;
  stderr : string
}.

Definition set_fs (f : gmap string bytes → gmap string bytes) (w : World) : World :=
  mkWorld (f (fs w)) (written w) (stdout w) (stderr w).

Definition log_write (path : string) (data : bytes) (w : World) : World :=
  mkWorld (fs w) (written w ++ [(path, data)]) (stdout w) (stderr w).

(** [print(s)] and [print(s, file=sys.stderr)]. *)
Definition print_stdout (s : string) (w : World) : World :=
  mkWorld (fs w) (written w) (stdout w +:+ s +:+ nl) (stderr w).

Definition print_stderr (s : string) (w : World) : World :=
  mkWorld (fs w) (written w) (stdout w) (stderr w +:+ s +:+ nl).

(** ** Computations: state passing with exceptions *)

Definition M (A : Type) : Type := World → Raises A * World.

Definition ret {A} (a : A) : M A := λ w, (Ret a, w).

Definition raise {A} (e : Exn) : M A := λ w, (Raise e, w).

Definition bind {A B} (m : M A) (k : A → M B) : M B :=
  λ w, match m w with
       | (Ret a, w') => k a w'
       | (Raise e, w') => (Raise e, w')
       end.

(** A call into the host that does not touch the modelled state. *)
Definition call {A} (r : Raises A) : M A := λ w, (r, w).

Notation "x <-- m ;; k" := (bind m (λ x, k))
  (at level 100, m at next level, right associativity).
Notation "m ;;; k" := (bind m (λ _, k))
  (at level 100, right associativity).

(** [try: body except C1 ...: h1 except C2 ...: h2].  The clauses are
    tried in order; an exception that matches none of them propagates.
    State changes made by [body] before it raised are kept. *)
Fixpoint dispatch {A} (handlers : list (ExnClass * (Exn → M A))) (e : Exn) : M A :=
  match handlers with
  | [] => raise e
  | (c, h) :: rest => if isinstance e c then h e else dispatch rest e
  end.

Definition try_except {A} (body : M A) (handlers : list (ExnClass * (Exn → M A))) : M A :=
  λ w, match body w with
       | (Ret a, w') => (Ret a, w')
       | (Raise e, w') => dispatch handlers e w'
       end.

(** ** The host: AppKit through PyObjC, and Python's file objects *)

(** The [fileType] constants of [NSBitmapImageRep]. *)
Inductive NSBitmapImageFileType :=
| NSBitmapImageFileTypeTIFF
| NSBitmapImageFileTypeBMP
| NSBitmapImageFileTypeGIF
| NSBitmapImageFileTypeJPEG
| NSBitmapImageFileTypePNG
| NSBitmapImageFileTypeJPEG2000.

Section IconExtractor.

Context {NSWorkspace NSImage NSData NSBitmapImageRep : Type}.

(** One field per call the script makes.  An Objective-C [nil] reaches
    Python as [None], hence the [option]s.

    - [import_AppKit]: [None] when the [from AppKit import ...] statement
      succeeds, [Some e] when it raises [e];
    - [setSize_] changes the image in place; it returns the image as it
      is after the call;
    - [open_wb path]: [None] when [open(path, 'wb')] succeeds, [Some e]
      when it raises [e];
    - [write_all path data]: [None] when the whole of [data] reaches the
      file, [Some (n, e)] when [e] is raised after [n] bytes. *)
Record Host := mkHost {
  import_AppKit : option Exn;
  sharedWorkspace : Raises NSWorkspace;
  iconForFile_ : NSWorkspace → string → Raises (option NSImage);
  setSize_ : NSImage → Z * Z → Raises NSImage;
  TIFFRepresentation : NSImage → Raises (option NSData);
  imageRepWithData_ : option NSData → Raises (option NSBitmapImageRep);
  representationUsingType_properties_ :
    NSBitmapImageRep → NSBitmapImageFileType → Raises (option bytes);
  open_wb : string → option Exn;
  write_all : string → bytes → option (nat * Exn)
}.

Variable h : Host.

(** [from AppKit import NSWorkspace, NSBitmapImageRep, NSBitmapImageFileTypePNG] *)
Definition from_AppKit_import : M unit :=
  match import_AppKit h with
  | None => ret ()
  | Some e => raise e
  end.

(** [open(path, 'wb')]: creates the file or truncates it.  The file
    object is identified with its path. *)
Definition open_ (path : string) : M string :=
  λ w, match open_wb h path with
       | Some e => (Raise e, w)
       | None => (Ret path, set_fs (<[path := []]>) w)
       end.

(** [f.write(data)]: appends at the end of what the file object wrote so
    far; what the call accepted is in the file (no buffer is modelled).
    [None] is not bytes-like. *)
Definition f_write (f : string) (data : option bytes) : M unit :=
  λ w, match data with
       | None =>
           (Raise (mkExn TypeError "a bytes-like object is required, not 'NoneType'"), w)
       | Some b =>
           let old := default [] (fs w !! f) in
           match write_all h f b with
           | None => (Ret (), log_write f b (set_fs (<[f := old ++ b]>) w))
           | Some (n, e) => (Raise e, set_fs (<[f := old ++ take n b]>) w)
           end
       end.

(** [with open(path, 'wb') as f: body].  Leaving the block closes [f],
    also when [body] raised; closing changes nothing in [World]. *)
Definition with_open {A} (path : string) (body : string → M A) : M A :=
  f <-- open_ path ;; body f.

(** [bitmap_rep.representationUsingType_properties_(t, None)], where
    [bitmap_rep] may be [None]. *)
Definition representationUsingType (bitmap_rep : option NSBitmapImageRep)
    (t : NSBitmapImageFileType) : M (option bytes) :=
  match bitmap_rep with
  | None =>
      raise (mkExn AttributeError
        "'NoneType' object has no attribute 'representationUsingType_properties_'")
  | Some rep => call (representationUsingType_properties_ h rep t)
  end.

(** ** [extract_icon] *)

(** Lines 15-32: the body of the [try]. *)
Definition extract_icon_body (app_path output_path : string) (size : Z) : M bool :=
  from_AppKit_import ;;;
  workspace <-- call (sharedWorkspace h) ;;
  icon <-- call (iconForFile_ h workspace app_path) ;;
  match icon with
  | None => ret false
  | Some icon =>
      icon <-- call (setSize_ h icon (size, size)) ;;
      tiff_data <-- call (TIFFRepresentation h icon) ;;
      bitmap_rep <-- call (imageRepWithData_ h tiff_data) ;;
      png_data <-- representationUsingType bitmap_rep NSBitmapImageFileTypePNG ;;
      with_open output_path (λ f, f_write f png_data) ;;;
      ret true
  end.

(** Lines 33-38: the two [except] clauses. *)
Definition extract_icon_handlers : list (ExnClass * (Exn → M bool)) :=
  [ (ImportError, λ _, ret false);
    (Exception, λ e w, (Ret false, print_stderr ("Error: " +:+ exn_str e) w)) ].

(** [def extract_icon(app_path, output_path, size=64)].  A call that
    leaves [size] out passes [None] here. *)
Definition extract_icon (app_path output_path : string) (size : option Z) : M bool :=
  let size := default 64%Z size in
  try_except (extract_icon_body app_path output_path size) extract_icon_handlers.

(** ** Where the body can fail *)

(** The lookup answered with [icon]. *)
Definition resolved (app_path : string) (icon : NSImage) : Prop :=
  import_AppKit h = None
  ∧ ∃ workspace, sharedWorkspace h = Ret workspace
                 ∧ iconForFile_ h workspace app_path = Ret (Some icon).

(** The lookup and [setSize_] went through and left [icon]. *)
Definition resized (app_path : string) (size : Z) (icon : NSImage) : Prop :=
  ∃ icon0, resolved app_path icon0 ∧ setSize_ h icon0 (size, size) = Ret icon.

(** Everything up to the PNG conversion went through and gave [png_data]. *)
Definition encoded (app_path : string) (size : Z) (png_data : option bytes) : Prop :=
  ∃ icon tiff_data rep,
    resized app_path size icon
    ∧ TIFFRepresentation h icon = Ret tiff_data
    ∧ imageRepWithData_ h tiff_data = Ret (Some rep)
    ∧ representationUsingType_properties_ h rep NSBitmapImageFileTypePNG = Ret png_data.

(** [raised_during app_path output_path size e]: with AppKit imported,
    the statement of the body that is reached first among those that
    raise, raises [e].  One constructor per statement and way of raising:
    the lookup (lines 17-18), the resize (line 24), the encoding (lines
    25-27), the write (lines 29-30). *)
Inductive raised_during (app_path output_path : string) (size : Z) : Exn → Prop :=
| during_sharedWorkspace e :
    import_AppKit h = None →
    sharedWorkspace h = Raise e →
    raised_during app_path output_path size e
| during_iconForFile workspace e :
    import_AppKit h = None →
    sharedWorkspace h = Ret workspace →
    iconForFile_ h workspace app_path = Raise e →
    raised_during app_path output_path size e
| during_setSize icon e :
    resolved app_path icon →
    setSize_ h icon (size, size) = Raise e →
    raised_during app_path output_path size e
| during_TIFFRepresentation icon e :
    resized app_path size icon →
    TIFFRepresentation h icon = Raise e →
    raised_during app_path output_path size e
| during_imageRepWithData icon tiff_data e :
    resized app_path size icon →
    TIFFRepresentation h icon = Ret tiff_data →
    imageRepWithData_ h tiff_data = Raise e →
    raised_during app_path output_path size e
| during_representation_of_None icon tiff_data :
    resized app_path size icon →
    TIFFRepresentation h icon = Ret tiff_data →
    imageRepWithData_ h tiff_data = Ret None →
    raised_during app_path output_path size
      (mkExn AttributeError
         "'NoneType' object has no attribute 'representationUsingType_properties_'")
| during_representation icon tiff_data rep e :
    resized app_path size icon →
    TIFFRepresentation h icon = Ret tiff_data →
    imageRepWithData_ h tiff_data = Ret (Some rep) →
    representationUsingType_properties_ h rep NSBitmapImageFileTypePNG = Raise e →
    raised_during app_path output_path size e
| during_open png_data e :
    encoded app_path size png_data →
    open_wb h output_path = Some e →
    raised_during app_path output_path size e
| during_write_of_None :
    encoded app_path size None →
    open_wb h output_path = None →
    raised_during app_path output_path size
      (mkExn TypeError "a bytes-like object is required, not 'NoneType'")
| during_write png n e :
    encoded app_path size (Some png) →
    open_wb h output_path = None →
    write_all h output_path png = Some (n, e) →
    raised_during app_path output_path size e.

End IconExtractor.

(** ** [int(s)]: the conversion applied to the size argument *)

(** A [str] is modelled by a [string] whose characters are the code
    points U+0000 to U+00FF.  [int] on a [str] first maps white space and
    decimal digits outside ASCII to ASCII, then parses in base 10: white
    space, an optional sign, digits with single underscores between
    them, white space. *)
Module PyInt.

(** [Py_ISSPACE]: the C-locale white space. *)
Definition Py_ISSPACE (c : ascii) : bool :=
  let n := nat_of_ascii c in
  (n =? 32)%nat || ((9 <=? n)%nat && (n <=? 13)%nat).

(** [Py_UNICODE_ISSPACE] on the code points from 127 to 255: NEL and the
    no-break space. *)
Definition Py_UNICODE_ISSPACE_high (c : ascii) : bool :=
  let n := nat_of_ascii c in
  (n =? 133)%nat || (n =? 160)%nat.

Definition digit_value (c : ascii) : option Z :=
  let n := nat_of_ascii c in
  if ((48 <=? n)%nat && (n <=? 57)%nat) then Some (Z.of_nat n - 48)%Z else None.

Definition is_ascii (s : list ascii) : bool :=
  forallb (λ c, (nat_of_ascii c <? 128)%nat) s.

(** The loop of [_PyUnicode_TransformDecimalAndSpaceToASCII].  No code
    point below U+0100 other than the ASCII digits has a decimal value,
    so a character that is neither below 127 nor white space becomes
    ['?'] and ends the result. *)
Fixpoint transform_loop (s : list ascii) : list ascii :=
  match s with
  | [] => []
  | c :: rest =>
      if (nat_of_ascii c <? 127)%nat then c :: transform_loop rest
      else if Py_UNICODE_ISSPACE_high c then " "%char :: transform_loop rest
      else ["?"%char]
  end.

Definition TransformDecimalAndSpaceToASCII (s : list ascii) : list ascii :=
  if is_ascii s then s else transform_loop s.

Fixpoint skip_space (s : list ascii) : list ascii :=
  match s with
  | c :: rest => if Py_ISSPACE c then skip_space rest else s
  | [] => []
  end.

(** The digit scan: the value read so far, the number of digits, and
    what follows the digits; [None] on two underscores in a row or an
    underscore at the end of the digits. *)
Fixpoint scan_digits (s : list ascii) (prev_underscore : bool) (acc : Z) (digits : nat)
  : option (Z * nat * list ascii) :=
  match s with
  | [] => if prev_underscore then None else Some (acc, digits, [])
  | c :: rest =>
      if Ascii.eqb c "_"%char then
        if prev_underscore then None else scan_digits rest true acc digits
      else
        match digit_value c with
        | Some d => scan_digits rest false (10 * acc + d)%Z (S digits)
        | None => if prev_underscore then None else Some (acc, digits, s)
        end
  end.

Inductive ParseError :=
| InvalidLiteral
| ExceedsLimit (digits : nat).

(** An optional sign in front. *)
Definition split_sign (s : list ascii) : Z * list ascii :=
  match s with
  | c :: rest =>
      if Ascii.eqb c "+"%char then (1%Z, rest)
      else if Ascii.eqb c "-"%char then ((-1)%Z, rest)
      else (1%Z, s)
  | [] => (1%Z, s)
  end.

Definition leading_underscore (s : list ascii) : bool :=
  match s with
  | c :: _ => Ascii.eqb c "_"%char
  | [] => false
  end.

(** What follows the sign, in the order of CPython 3.12: the syntax is
    checked first, the number of digits second.  [max_str_digits] is
    [sys.get_int_max_str_digits()]: [0] switches the limit off (as do
    interpreters older than the limit); no string of 640 digits or fewer
    is ever refused for its length. *)
Definition parse_digits (max_str_digits : nat) (sign : Z) (s : list ascii)
  : ParseError + Z :=
  if leading_underscore s then inl InvalidLiteral
  else
    match scan_digits s false 0%Z 0 with
    | None => inl InvalidLiteral
    | Some (v, digits, rest) =>
        if (digits =? 0)%nat then inl InvalidLiteral
        else
          match skip_space rest with
          | _ :: _ => inl InvalidLiteral
          | [] =>
              if (640 <? digits)%nat && (0 <? max_str_digits)%nat
                 && (max_str_digits <? digits)%nat
              then inl (ExceedsLimit digits)
              else inr (sign * v)%Z
          end
    end.

(** [PyLong_FromUnicodeObject] with base 10. *)
Definition parse (max_str_digits : nat) (s : string) : ParseError + Z :=
  let s := skip_space (TransformDecimalAndSpaceToASCII (list_ascii_of_string s)) in
  let '(sign, s) := split_sign s in
  parse_digits max_str_digits sign s.

(** The characters ['0'] to ['9']. *)
Definition is_digit (c : ascii) : Prop := is_Some (digit_value c).

(** The number a run of digits stands for, read after [acc]. *)
Definition digits_value (l : list ascii) (acc : Z) : Z :=
  fold_left (λ a c, 10 * a + default 0 (digit_value c))%Z l acc.

End PyInt.

(** ** The command-line block *)

(** How the process ends: [sys.exit(n)], or an exception nobody caught
    (the interpreter then prints its traceback and the exit status is 1;
    [World] records what the script itself printed). *)
Inductive Outcome :=
| Exit (status : Z)
| Uncaught (e : Exn).

Definition usage : string :=
  "Usage: extract-icon.py <app_path> <output_path> [size]".

Section CommandLine.

Context {NSWorkspace NSImage NSData NSBitmapImageRep : Type}.
Variable h : @Host NSWorkspace NSImage NSData NSBitmapImageRep.

(** The interpreter's settings and the text of its messages:
    [sys.get_int_max_str_digits()], and how a [str] is shown in the
    message of a [ValueError] (its [repr], cut at 200 characters). *)
Variable int_max_str_digits : nat.
Variable repr : string → string.

(** [int(s)] for a [str] argument. *)
Definition int (s : string) : Raises Z :=
  match PyInt.parse int_max_str_digits s with
  | inr n => Ret n
  | inl PyInt.InvalidLiteral =>
      Raise (mkExn ValueError ("invalid literal for int() with base 10: " +:+ repr s))
  | inl (PyInt.ExceedsLimit digits) =>
      Raise (mkExn ValueError
        ("Exceeds the limit (" +:+ pretty int_max_str_digits
         +:+ " digits) for integer string conversion: value has "
         +:+ pretty digits
         +:+ " digits; use sys.set_int_max_str_digits() to increase the limit"))
  end.

(** [sys.argv[i]], for an [i] the caller knows to be in range. *)
Definition argv_at (argv : list string) (i : nat) : string := default "" (argv !! i).

(** Line 47: [int(sys.argv[3]) if len(sys.argv) > 3 else 64]. *)
Definition size_argument (argv : list string) : Raises Z :=
  if (3 <? length argv)%nat then int (argv_at argv 3) else Ret 64%Z.

(** Lines 49-53: what the script does with the result of [extract_icon]. *)
Definition report (r : Raises bool * World) : Outcome * World :=
  match r with
  | (Ret true, w) => (Exit 0, print_stdout "OK" w)
  | (Ret false, w) => (Exit 1, w)
  | (Raise e, w) => (Uncaught e, w)
  end.

(** Lines 40-53, run on [sys.argv]. *)
Definition main (argv : list string) (w : World) : Outcome * World :=
  if (length argv <? 3)%nat then
    (Exit 1, print_stderr usage w)
  else
    let app_path := argv_at argv 1 in
    let output_path := argv_at argv 2 in
    match size_argument argv with
    | Raise e => (Uncaught e, w)
    | Ret size => report (extract_icon h app_path output_path (Some size) w)
    end.

End CommandLine.

(** ** The pydantic models of the feature-flags endpoint *)

Module FeatureFlags.

(** [class FeatureFlagsRolloutInfo(BaseModel)] *)
Record FeatureFlagsRolloutInfo := mkFeatureFlagsRolloutInfo {
  websocket_enabled : bool;
  evidence_validation_enabled : bool;
  billing_enabled : bool;
  hmac_enabled : bool
}.

(** What a caller may pass for a field: [None], a [bool], an [int], a
    [str], a [dict] with [str] keys, or an instance of the nested model. *)
#[warnings="-register-all"] Inductive pyval :=
| PNone
| PBool (b : bool)
| PInt (n : Z)
| PStr (s : string)
| PDict (d : gmap string pyval)
| PRolloutInfo (r : FeatureFlagsRolloutInfo).

(** The [type] of one entry of a [ValidationError]. *)
Inductive ErrorType :=
| missing
| bool_type
| bool_parsing
| string_type
| dict_type
| model_type.

(** One entry of a [ValidationError]: where, and what. *)
Record ErrorDetails := mkError { loc : list string; type : ErrorType }.

(** Construction either raises a [ValidationError] carrying every error
    found ([inl]) or yields the value ([inr]). *)
Definition Validated (A : Type) : Type := list ErrorDetails + A.

Definition at_loc {A} (name : string) (r : Validated A) : Validated A :=
  match r with
  | inl errors => inl ((λ e, mkError (name :: loc e) (type e)) <$> errors)
  | inr a => inr a
  end.

(** Fields are validated one by one and the errors of all of them are
    collected. *)
Definition ap {A B} (f : Validated (A → B)) (x : Validated A) : Validated B :=
  match f, x with
  | inr f, inr x => inr (f x)
  | inl e1, inl e2 => inl (e1 ++ e2)
  | inl e, inr _ => inl e
  | inr _, inl e => inl e
  end.

Notation "f <*> x" := (ap f x) (at level 61, left associativity).

(** [name: T = Field(...)]: the field is required. *)
Definition Field_required {A} (name : string) (validator : pyval → Validated A)
    (data : gmap string pyval) : Validated A :=
  match data !! name with
  | None => inl [mkError [name] missing]
  | Some v => at_loc name (validator v)
  end.

(** [name: T = Field(default=d)]: the default stands in for a field that
    was left out, and is not validated. *)
Definition Field_default {A} (name : string) (d : A) (validator : pyval → Validated A)
    (data : gmap string pyval) : Validated A :=
  match data !! name with
  | None => inr d
  | Some v => at_loc name (validator v)
  end.

Definition ascii_lower (c : ascii) : ascii :=
  let n := nat_of_ascii c in
  if ((65 <=? n)%nat && (n <=? 90)%nat) then ascii_of_nat (n + 32) else c.

Fixpoint lower (s : string) : string :=
  match s with
  | EmptyString => EmptyString
  | String c rest => String (ascii_lower c) (lower rest)
  end.

(** [bool], in pydantic's default (lax) mode. *)
Definition validate_bool (v : pyval) : Validated bool :=
  match v with
  | PBool b => inr b
  | PInt 0 => inr false
  | PInt 1 => inr true
  | PInt _ => inl [mkError [] bool_parsing]
  | PStr s =>
      let s := lower s in
      if bool_decide (s ∈ ["0"; "off"; "f"; "false"; "n"; "no"]) then inr false
      else if bool_decide (s ∈ ["1"; "on"; "t"; "true"; "y"; "yes"]) then inr true
      else inl [mkError [] bool_parsing]
  | _ => inl [mkError [] bool_type]
  end.

(** [Optional[str]] *)
Definition validate_optional_str (v : pyval) : Validated (option string) :=
  match v with
  | PNone => inr None
  | PStr s => inr (Some s)
  | _ => inl [mkError [] string_type]
  end.

(** [Dict[str, bool]]: every value is validated as a [bool]. *)
Definition validate_dict_str_bool (v : pyval) : Validated (gmap string bool) :=
  match v with
  | PDict d =>
      let errors :=
        concat ((λ kv, match at_loc kv.1 (validate_bool kv.2) with
                       | inl e => e
                       | inr _ => []
                       end) <$> map_to_list d) in
      match errors with
      | [] => inr (omap (λ x, match validate_bool x with
                              | inr b => Some b
                              | inl _ => None
                              end) d)
      | _ :: _ => inl errors
      end
  | _ => inl [mkError [] dict_type]
  end.

(** A call of [FeatureFlagsRolloutInfo] with the keyword arguments [data]. *)
Definition new_FeatureFlagsRolloutInfo (data : gmap string pyval)
  : Validated FeatureFlagsRolloutInfo :=
  inr mkFeatureFlagsRolloutInfo
    <*> Field_required "websocket_enabled" validate_bool data
    <*> Field_required "evidence_validation_enabled" validate_bool data
    <*> Field_required "billing_enabled" validate_bool data
    <*> Field_required "hmac_enabled" validate_bool data.

(** A field of type [FeatureFlagsRolloutInfo] takes an instance as it
    is, or a [dict] from which an instance is built. *)
Definition validate_FeatureFlagsRolloutInfo (v : pyval) : Validated FeatureFlagsRolloutInfo :=
  match v with
  | PRolloutInfo r => inr r
  | PDict d => new_FeatureFlagsRolloutInfo d
  | _ => inl [mkError [] model_type]
  end.

(** [class FeatureFlagsResponse(BaseModel)] *)
Record FeatureFlagsResponse := mkFeatureFlagsResponse {
  flags : gmap string bool;
  user_id : option string;
  rollout_info : FeatureFlagsRolloutInfo
}.

(** A call of [FeatureFlagsResponse] with the keyword arguments [data].
    Keys of [data] that name no field are ignored. *)
Definition new_FeatureFlagsResponse (data : gmap string pyval)
  : Validated FeatureFlagsResponse :=
  inr mkFeatureFlagsResponse
    <*> Field_required "flags" validate_dict_str_bool data
    <*> Field_default "user_id" None validate_optional_str data
    <*> Field_required "rollout_info" validate_FeatureFlagsRolloutInfo data.

(** Construction raised a [ValidationError] that lists [err]. *)
Definition fails_with {A} (err : ErrorDetails) (r : Validated A) : Prop :=
  ∃ errors, r = inl errors ∧ err ∈ errors.

(** The example of [Config.json_schema_extra]. *)
Definition example_data : gmap string pyval :=
  {[ "flags" := PDict {[ "websocket_execution" := PBool false;
                         "evidence_validation" := PBool true;
                         "billing_enforcement" := PBool false;
                         "hmac_security" := PBool true ]};
     "user_id" := PStr "desktop-user";
     "rollout_info" := PDict {[ "websocket_enabled" := PBool false;
                                "evidence_validation_enabled" := PBool true;
                                "billing_enabled" := PBool false;
                                "hmac_enabled" := PBool true ]} ]}.

End FeatureFlags.

(** ** How a run of the body ends *)

(** The body of the [try] of [extract_icon] ends in one of three ways:
    it wrote the encoder's output and returned [True]; it found no icon
    and returned [False] with the state as it was; it raised.  Only the
    first adds to [written]; none prints. *)
Inductive body_run (output_path : string) (w : World) : Raises bool → World → Prop :=
| run_written png :
    body_run output_path w (Ret true)
      (log_write output_path png (set_fs (<[output_path := png]>) w))
| run_no_icon :
    body_run output_path w (Ret false) w
| run_raised e w' :
    written w' = written w → stdout w' = stdout w → stderr w' = stderr w →
    (fs w' = fs w ∨ ∃ data, fs w' = <[output_path := data]> (fs w)) →
    body_run output_path w (Raise e) w'.

(** ** What the specification expects of the platform *)

Section Platform.

Context {NSWorkspace NSImage NSData NSBitmapImageRep : Type}.

(** A host on which AppKit is present and renders as the specification
    assumes: which paths hold an application bundle, the pixel size each
    intermediate object stands for, which byte strings are PNG images of
    a given width and height, and the laws tying the calls together.
    Nothing is said about a path that holds no bundle. *)
Record AppKitContract (h : @Host NSWorkspace NSImage NSData NSBitmapImageRep) :=
mkAppKitContract {
  bundle : string → Prop;
  image_size : NSImage → Z * Z;
  tiff_size : NSData → Z * Z;
  rep_size : NSBitmapImageRep → Z * Z;
  png_image : bytes → Z * Z → Prop;
  workspace : NSWorkspace;
  import_ok : import_AppKit h = None;
  sharedWorkspace_ok : sharedWorkspace h = Ret workspace;
  iconForFile_ok :
    ∀ p, bundle p → ∃ icon, iconForFile_ h workspace p = Ret (Some icon);
  setSize_ok :
    ∀ icon width height, (0 < width)%Z → (0 < height)%Z →
      ∃ icon', setSize_ h icon (width, height) = Ret icon'
               ∧ image_size icon' = (width, height);
  TIFFRepresentation_ok :
    ∀ icon, ∃ d, TIFFRepresentation h icon = Ret (Some d)
                 ∧ tiff_size d = image_size icon;
  imageRepWithData_ok :
    ∀ d, ∃ rep, imageRepWithData_ h (Some d) = Ret (Some rep)
                ∧ rep_size rep = tiff_size d;
  representationUsingType_ok :
    ∀ rep, ∃ png,
      representationUsingType_properties_ h rep NSBitmapImageFileTypePNG = Ret (Some png)
      ∧ png_image png (rep_size rep)
}.

(** [open(path, 'wb')] succeeds and whatever is written reaches the file. *)
Definition writable (h : @Host NSWorkspace NSImage NSData NSBitmapImageRep)
    (path : string) : Prop :=
  open_wb h path = None ∧ ∀ data, write_all h path data = None.

End Platform.

Arguments bundle {_ _ _ _ _} _ _.
Arguments png_image {_ _ _ _ _} _ _ _.

(** ** Small hosts to run the script on *)

Module TestHost.

Definition byte_of (n : Z) : Byte.byte :=
  default Byte.x00 (Byte.of_N (Z.to_N (n mod 256))).

Definition be32 (n : Z) : bytes :=
  [byte_of (n / 16777216); byte_of (n / 65536); byte_of (n / 256); byte_of n].

(** The PNG signature and the head of an IHDR chunk of the given width
    and height: what this host's encoder returns. *)
Definition png_of_size (s : Z * Z) : bytes :=
  [Byte.x89; Byte.x50; Byte.x4e; Byte.x47; Byte.x0d; Byte.x0a; Byte.x1a; Byte.x0a]
  ++ be32 13
  ++ [Byte.x49; Byte.x48; Byte.x44; Byte.x52]
  ++ be32 s.1 ++ be32 s.2.

(** An image is the path it was resolved for and its size. *)
Definition Image : Type := string * (Z * Z).

Definition make (import : option Exn) (lookup : string → Raises (option Image))
    (opening : string → option Exn) : @Host unit Image (Z * Z) (Z * Z) :=
  {| import_AppKit := import;
     sharedWorkspace := Ret ();
     iconForFile_ := λ _ p, lookup p;
     setSize_ := λ icon s, Ret (icon.1, s);
     TIFFRepresentation := λ icon, Ret (Some icon.2);
     imageRepWithData_ := λ d, Ret d;
     representationUsingType_properties_ := λ rep t,
       match t with
       | NSBitmapImageFileTypePNG => Ret (Some (png_of_size rep))
       | _ => Ret None
       end;
     open_wb := opening;
     write_all := λ _ _, None |}.

Definition safari : string := "/Applications/Safari.app".

(** The resolver never answers nil: a path it knows nothing about gets a
    generic icon.  This is how AppKit declares [iconForFile:] (the result
    is non-null; in Swift, [icon(forFile:)] returns [NSImage], not an
    optional). *)
Definition lookup_generic (p : string) : Raises (option Image) :=
  Ret (Some (if bool_decide (p = safari) then (p, (32, 32)%Z) else ("generic", (32, 32)%Z))).


Definition host : Host := make None lookup_generic (λ _, None).


Definition no_AppKit : Exn := mkExn ModuleNotFoundError "No module named 'AppKit'".

Definition host_without_pyobjc : Host := make (Some no_AppKit) lookup_generic (λ _, None).

Definition permission_denied : Exn :=
  mkExn PermissionError "[Errno 13] Permission denied: '/icon.png'".

Definition host_read_only : Host := make None lookup_generic (λ _, Some permission_denied).

(** Nothing on disk, nothing printed. *)
Definition w0 : World := mkWorld ∅ [] "" "".

Definition repr (s : string) : string := "'" +:+ s +:+ "'".

(** The first host meets the platform contract, with one bundle. *)
Definition host_contract : AppKitContract host.
Proof.
  refine {| bundle := λ p, p = safari;
            image_size := λ icon : Image, icon.2;
            tiff_size := λ d : Z * Z, d;
            rep_size := λ rep : Z * Z, rep;
            png_image := λ png s, png = png_of_size s;
            workspace := () |}; try reflexivity.
  - intros p ->. by eexists.
  - intros icon width height _ _. by eexists.
  - intros icon. by eexists.
  - intros d. by eexists.
  - intros rep. by eexists.
Defined.

End TestHost.

(** ** The characters of a size argument *)

Module SizeArgument.

Import PyInt.

(** The characters [int] lets through somewhere in a base-10 string:
    digits, the two signs, the underscore, and white space. *)
Definition size_char (c : ascii) : bool :=
  bool_decide (is_Some (digit_value c))
  || Ascii.eqb c "+"%char || Ascii.eqb c "-"%char || Ascii.eqb c "_"%char
  || Py_ISSPACE c || Py_UNICODE_ISSPACE_high c.

(** The same after the mapping to ASCII. *)
Definition ascii_size_char (c : ascii) : bool :=
  bool_decide (is_Some (digit_value c))
  || Ascii.eqb c "+"%char || Ascii.eqb c "-"%char || Ascii.eqb c "_"%char
  || Py_ISSPACE c.

End SizeArgument.

(** ** Dumping the models *)

Module FeatureFlagsDump.

Import FeatureFlags.

(** [info.model_dump()]: the fields of a rollout-info object as a [dict]. *)
Definition dump_FeatureFlagsRolloutInfo (info : FeatureFlagsRolloutInfo)
  : gmap string pyval :=
  {[ "websocket_enabled" := PBool (websocket_enabled info);
     "evidence_validation_enabled" := PBool (evidence_validation_enabled info);
     "billing_enabled" := PBool (billing_enabled info);
     "hmac_enabled" := PBool (hmac_enabled info) ]}.

Definition dump_optional_str (s : option string) : pyval :=
  match s with
  | None => PNone
  | Some s => PStr s
  end.

(** [response.model_dump()]: nested models become [dict]s, and a
    [user_id] that is [None] is kept. *)
Definition dump_FeatureFlagsResponse (response : FeatureFlagsResponse)
  : gmap string pyval :=
  {[ "flags" := PDict (PBool <$> flags response);
     "user_id" := dump_optional_str (user_id response);
     "rollout_info" := PDict (dump_FeatureFlagsRolloutInfo (rollout_info response)) ]}.

(** The errors a construction reported, none when it succeeded. *)
Definition errors_of {A} (r : Validated A) : list ErrorDetails :=
  match r with
  | inl errors => errors
  | inr _ => []
  end.

(** The value of a flag as [Dict[str, bool]] takes it, if it takes it. *)
Definition as_bool (v : pyval) : option bool :=
  match validate_bool v with
  | inr b => Some b
  | inl _ => None
  end.

End FeatureFlagsDump.

(** ** Hosts on which something fails *)

Module FailingHosts.

Import TestHost.




Definition late_ImportError : Exn :=
  mkExn ImportError "cannot import name 'CoreServices'".

(** AppKit imports, and the lookup raises an [ImportError] of its own. *)
Definition host_late_import : Host :=
  make None (λ _, Raise late_ImportError) (λ _, None).



(** One file on disk, nothing printed. *)
Definition w1 : World := mkWorld {[ "/notes.txt" := [Byte.x68; Byte.x69] ]} [] "" "".

End FailingHosts.

(** ** Signals, failing prints and a failing close *)

(** The definitions above take every operation to raise, if anything, an
    instance of [Exception], every [print] to succeed and the close of
    the output file to be silent.  [Full] drops the three assumptions: a
    signal can be handled while a statement runs and raise an exception
    that only derives from [BaseException], a [print] can raise, text
    left in the buffer of the standard output can fail to be flushed
    when the interpreter exits, and closing the file can raise with part
    of the data on disk. *)
Module Full.

(** The exceptions that do not derive from [Exception]. *)
Inductive BaseOnly :=
| KeyboardInterrupt
| SystemExit (code : Z)
| GeneratorExit.

(** Anything a [raise] can carry. *)
Inductive Thrown :=
| Exc (e : Exn)
| NonExc (b : BaseOnly).

(** [isinstance(t, c)] for a class [c] under [Exception]. *)
Definition caught_by (c : ExnClass) (t : Thrown) : bool :=
  match t with
  | Exc e => isinstance e c
  | NonExc _ => false
  end.

(** [str(t)] *)
Definition thrown_str (t : Thrown) : string :=
  match t with
  | Exc e => exn_str e
  | NonExc KeyboardInterrupt => ""
  | NonExc (SystemExit code) => pretty code
  | NonExc GeneratorExit => ""
  end.

Inductive Result (A : Type) :=
| Ok (a : A)
| Throw (t : Thrown).
Arguments Ok {A} a.
Arguments Throw {A} t.

Definition Run (A : Type) : Type := World → Result A * World.

Definition ok {A} (a : A) : Run A := λ w, (Ok a, w).

Definition throw {A} (t : Thrown) : Run A := λ w, (Throw t, w).

Definition and_then {A B} (m : Run A) (k : A → Run B) : Run B :=
  λ w, match m w with
       | (Ok a, w') => k a w'
       | (Throw t, w') => (Throw t, w')
       end.

Notation "x <~ m ;; k" := (and_then m (λ x, k))
  (at level 100, m at next level, right associativity).
Notation "m ~;; k" := (and_then m (λ _, k))
  (at level 100, right associativity).

(** The statements during which a signal can be handled. *)
Inductive Step :=
| AtImport
| AtSharedWorkspace
| AtIconForFile
| AtSetSize
| AtTIFFRepresentation
| AtImageRepWithData
| AtRepresentation
| AtOpen
| AtWrite
| AtInt.

(** What becomes of a [print] on the standard output, which is buffered
    when it is not a terminal: the text gets out (at once or when the
    interpreter exits); or the [print] returns and the flush at exit
    fails, so that nothing gets out and the exit status becomes 120; or
    the [print] raises. *)
Inductive StdoutOutcome :=
| Printed
| FlushFailsAtExit
| PrintRaises (t : Thrown).

(** [try: body except C1: h1 except C2: h2] over [Thrown]. *)
Fixpoint dispatch {A} (handlers : list (ExnClass * (Thrown → Run A))) (t : Thrown)
  : Run A :=
  match handlers with
  | [] => throw t
  | (c, h) :: rest => if caught_by c t then h t else dispatch rest t
  end.

Definition try_except {A} (body : Run A) (handlers : list (ExnClass * (Thrown → Run A)))
  : Run A :=
  λ w, match body w with
       | (Ok a, w') => (Ok a, w')
       | (Throw t, w') => dispatch handlers t w'
       end.

(** How the process ends. *)
Inductive Outcome :=
| Exit (status : Z)
| Uncaught (t : Thrown).

Section Script.

Context {NSWorkspace NSImage NSData NSBitmapImageRep : Type}.

(** The host as before, and what it adds:
    - [interrupt st]: the exception raised by a signal handled while the
      statement [st] runs, which then has no effect of its own;
    - [closing path]: [None] when the file object of [path] closes in
      silence with all it accepted on disk, [Some (n, t)] when closing
      raises [t] with the first [n] bytes on disk;
    - [stderr_print s]: [None] when [print(s, file=sys.stderr)] writes
      the line, [Some t] when it raises [t] and writes nothing;
    - [stdout_print s]: what becomes of [print(s)]. *)
Record Process := mkProcess {
  host : @Host NSWorkspace NSImage NSData NSBitmapImageRep;
  interrupt : Step → option BaseOnly;
  closing : string → option (nat * Thrown);
  stderr_print : string → option Thrown;
  stdout_print : string → StdoutOutcome
}.

Variable p : Process.

(** One statement: interrupted, or run as before. *)
Definition step {A} (st : Step) (m : M A) : Run A :=
  λ w, match interrupt p st with
       | Some b => (Throw (NonExc b), w)
       | None =>
           match m w with
           | (Ret a, w') => (Ok a, w')
           | (Raise e, w') => (Throw (Exc e), w')
           end
       end.

(** [with open(path, 'wb') as f: body].  Leaving the block closes [f]
    whether or not [body] raised; an exception of the close replaces the
    one of [body]. *)
Definition with_open {A} (path : string) (body : string → Run A) : Run A :=
  λ w, match step AtOpen (open_ (host p) path) w with
       | (Throw t, w1) => (Throw t, w1)
       | (Ok f, w1) =>
           let '(r, w2) := body f w1 in
           match closing p f with
           | None => (r, w2)
           | Some (n, t) =>
               (Throw t, set_fs (λ m, <[f := take n (default [] (m !! f))]> m) w2)
           end
       end.

(** Lines 15-32. *)
Definition extract_icon_body (app_path output_path : string) (size : Z) : Run bool :=
  step AtImport (from_AppKit_import (host p)) ~;;
  workspace <~ step AtSharedWorkspace (call (sharedWorkspace (host p))) ;;
  icon <~ step AtIconForFile (call (iconForFile_ (host p) workspace app_path)) ;;
  match icon with
  | None => ok false
  | Some icon =>
      icon <~ step AtSetSize (call (setSize_ (host p) icon (size, size))) ;;
      tiff_data <~ step AtTIFFRepresentation (call (TIFFRepresentation (host p) icon)) ;;
      bitmap_rep <~ step AtImageRepWithData (call (imageRepWithData_ (host p) tiff_data)) ;;
      png_data <~ step AtRepresentation
                    (representationUsingType (host p) bitmap_rep NSBitmapImageFileTypePNG) ;;
      with_open output_path (λ f, step AtWrite (f_write (host p) f png_data)) ~;;
      ok true
  end.

(** Line 37, which can itself raise. *)
Definition print_error (t : Thrown) : Run bool :=
  λ w, let line := "Error: " +:+ thrown_str t in
       match stderr_print p line with
       | None => (Ok false, print_stderr line w)
       | Some t' => (Throw t', w)
       end.

(** Lines 33-38. *)
Definition extract_icon_handlers : list (ExnClass * (Thrown → Run bool)) :=
  [ (ImportError, λ _, ok false); (Exception, print_error) ].

(** [def extract_icon(app_path, output_path, size=64)] *)
Definition extract_icon (app_path output_path : string) (size : option Z) : Run bool :=
  let size := default 64%Z size in
  try_except (extract_icon_body app_path output_path size) extract_icon_handlers.

Variable int_max_str_digits : nat.
Variable repr : string → string.

(** Lines 49-53. *)
Definition report (r : Result bool * World) : Outcome * World :=
  match r with
  | (Ok true, w) =>
      match stdout_print p "OK" with
      | Printed => (Exit 0, print_stdout "OK" w)
      | FlushFailsAtExit => (Exit 120, w)
      | PrintRaises t => (Uncaught t, w)
      end
  | (Ok false, w) => (Exit 1, w)
  | (Throw t, w) => (Uncaught t, w)
  end.

(** Line 47: [int] is called, and can be interrupted, only when there
    is a third argument. *)
Definition size_argument (argv : list string) : Run Z :=
  if (3 <? length argv)%nat
  then step AtInt (call (int int_max_str_digits repr (argv_at argv 3)))
  else ok 64%Z.

(** Lines 40-53, run on [sys.argv]. *)
Definition main (argv : list string) (w : World) : Outcome * World :=
  if (length argv <? 3)%nat then
    match stderr_print p usage with
    | None => (Exit 1, print_stderr usage w)
    | Some t => (Uncaught t, w)
    end
  else
    let app_path := argv_at argv 1 in
    let output_path := argv_at argv 2 in
    match size_argument argv w with
    | (Throw t, w') => (Uncaught t, w')
    | (Ok size, w') => report (extract_icon app_path output_path (Some size) w')
    end.

(** How a run of the body ends: the data written and the file closed;
    no icon; or something thrown, after which the streams are as before
    and a write is on record only if it is the close that raised. *)
Inductive body_run (app_path output_path : string) (size : Z) (w : World)
  : Result bool → World → Prop :=
| run_written png :
    encoded (host p) app_path size (Some png) →
    open_wb (host p) output_path = None →
    write_all (host p) output_path png = None →
    closing p output_path = None →
    body_run app_path output_path size w (Ok true)
      (log_write output_path png (set_fs (<[output_path := png]>) w))
| run_no_icon :
    body_run app_path output_path size w (Ok false) w
| run_thrown t w' :
    stdout w' = stdout w → stderr w' = stderr w →
    (written w' = written w
     ∨ ∃ png n, written w' = written w ++ [(output_path, png)]
                ∧ closing p output_path = Some (n, t)) →
    body_run app_path output_path size w (Throw t) w'.

(** No signal, a silent close and prints that get out: the process the
    definitions before [Full] describe. *)
Definition quiet : Prop :=
  (∀ st, interrupt p st = None)
  ∧ (∀ path, closing p path = None)
  ∧ (∀ s, stderr_print p s = None)
  ∧ (∀ s, stdout_print p s = Printed).

End Script.

End Full.

(** ** Processes to run the script in *)

Module TestProcess.

Import TestHost FailingHosts.

(** No signal, a silent close, prints that get out. *)
Definition quiet_on (h : @Host unit Image (Z * Z) (Z * Z)) : Full.Process :=
  Full.mkProcess h (λ _, None) (λ _, None) (λ _, None) (λ _, Full.Printed).

(** Control-C is handled while the lookup runs. *)
Definition interrupted_lookup : Full.Process :=
  Full.mkProcess host
    (λ st, match st with
           | Full.AtIconForFile => Some Full.KeyboardInterrupt
           | _ => None
           end)
    (λ _, None) (λ _, None) (λ _, Full.Printed).


End TestProcess.

(** * Properties *)

(** ** Exceptions and handlers *)

Lemma isinstance_Exception (e : Exn) : isinstance e Exception = true.
Proof. destruct e as [c s]; destruct c; reflexivity. Qed.

Section ExtractIconFacts.

Context {NSWorkspace NSImage NSData NSBitmapImageRep : Type}.
Variable h : @Host NSWorkspace NSImage NSData NSBitmapImageRep.

(** What the two [except] clauses do with an exception. *)
Lemma extract_icon_handlers_spec (e : Exn) (w : World) :
  dispatch extract_icon_handlers e w =
    if isinstance e ImportError then (Ret false, w)
    else (Ret false, print_stderr ("Error: " +:+ exn_str e) w).
Proof.
  unfold extract_icon_handlers; simpl.
  destruct (isinstance e ImportError); [reflexivity|].
  rewrite isinstance_Exception. reflexivity.
Qed.

Lemma extract_icon_unfold app_path output_path size w :
  extract_icon h app_path output_path size w =
    match extract_icon_body h app_path output_path (default 64%Z size) w with
    | (Ret b, w') => (Ret b, w')
    | (Raise e, w') =>
        if isinstance e ImportError then (Ret false, w')
        else (Ret false, print_stderr ("Error: " +:+ exn_str e) w')
    end.
Proof.
  unfold extract_icon, try_except.
  destruct (extract_icon_body _ _ _ _ _) as [[b|e] w']; [reflexivity|].
  apply extract_icon_handlers_spec.
Qed.

Lemma extract_icon_body_run app_path output_path size w :
  body_run output_path w
    (extract_icon_body h app_path output_path size w).1
    (extract_icon_body h app_path output_path size w).2.
Proof.
  unfold extract_icon_body, bind, from_AppKit_import, call, ret, raise.
  destruct (import_AppKit h) as [e|]; simpl; [by apply run_raised; eauto|].
  destruct (sharedWorkspace h) as [ws|e]; simpl; [|by apply run_raised; eauto].
  destruct (iconForFile_ h ws app_path) as [[icon|]|e]; simpl;
    [|by apply run_no_icon|by apply run_raised; eauto].
  destruct (setSize_ h icon (size, size)) as [icon'|e]; simpl;
    [|by apply run_raised; eauto].
  destruct (TIFFRepresentation h icon') as [tiff_data|e]; simpl;
    [|by apply run_raised; eauto].
  destruct (imageRepWithData_ h tiff_data) as [[rep|]|e]; simpl;
    [|by apply run_raised; eauto|by apply run_raised; eauto].
  destruct (representationUsingType_properties_ h rep NSBitmapImageFileTypePNG)
    as [png_data|e]; simpl; [|by apply run_raised; eauto].
  unfold with_open, bind, open_.
  destruct (open_wb h output_path) as [e|]; simpl; [by apply run_raised; eauto|].
  unfold f_write.
  destruct png_data as [png|]; simpl.
  - rewrite lookup_insert_eq; simpl.
    destruct (write_all h output_path png) as [[n e]|]; simpl.
    + apply run_raised; simpl; eauto.
      right. eexists. by rewrite insert_insert_eq.
    + replace (set_fs _ (set_fs _ w)) with (set_fs (<[output_path := png]>) w)
        by (unfold set_fs; simpl; by rewrite insert_insert_eq).
      apply run_written.
  - apply run_raised; simpl; eauto.
Qed.

Lemma extract_icon_body_import_raises app_path output_path size w e :
  import_AppKit h = Some e →
  extract_icon_body h app_path output_path size w = (Raise e, w).
Proof.
  intros Himport.
  unfold extract_icon_body, bind, from_AppKit_import. by rewrite Himport.
Qed.



Lemma not_written_twice (l : list (string * bytes)) x : l ≠ l ++ [x].
Proof.
  intros Heq. apply (f_equal length) in Heq.
  rewrite length_app in Heq. simpl in Heq. lia.
Qed.



(** C4. When the import of AppKit raises an [ImportError],
    [extract_icon] returns [False], raises nothing, prints nothing to the
    error stream and changes nothing else either. *)
Theorem extract_icon_without_AppKit app_path output_path size w e :
  import_AppKit h = Some e →
  isinstance e ImportError = true →
  extract_icon h app_path output_path size w = (Ret false, w).
Proof.
  intros Himport Hclass.
  rewrite extract_icon_unfold.
  rewrite (extract_icon_body_import_raises _ _ _ _ e) by done.
  by rewrite Hclass.
Qed.

(** An exception raised during the lookup, the resize, the encoding or
    the write comes out of the body of the [try]. *)
Lemma raised_during_body app_path output_path size w e :
  raised_during h app_path output_path size e →
  ∃ w1, extract_icon_body h app_path output_path size w = (Raise e, w1).
Proof.
  unfold extract_icon_body, bind, from_AppKit_import, call, ret, raise.
  intros Hraised.
  destruct Hraised as
    [ e Himport Hws
    | ws e Himport Hws Hicon
    | icon e (Himport & ws & Hws & Hicon) Hset
    | icon e (icon0 & (Himport & ws & Hws & Hicon) & Hset) Htiff
    | icon tiff e (icon0 & (Himport & ws & Hws & Hicon) & Hset) Htiff Hrep
    | icon tiff (icon0 & (Himport & ws & Hws & Hicon) & Hset) Htiff Hrep
    | icon tiff rep e (icon0 & (Himport & ws & Hws & Hicon) & Hset) Htiff Hrep Hpng
    | png_data e (icon & tiff & rep & (icon0 & (Himport & ws & Hws & Hicon) & Hset)
                  & Htiff & Hrep & Hpng) Hopen
    | (icon & tiff & rep & (icon0 & (Himport & ws & Hws & Hicon) & Hset)
       & Htiff & Hrep & Hpng) Hopen
    | png n e (icon & tiff & rep & (icon0 & (Himport & ws & Hws & Hicon) & Hset)
               & Htiff & Hrep & Hpng) Hopen Hwrite ];
    rewrite Himport, Hws; simpl;
    try (rewrite Hicon; simpl);
    try (rewrite Hset; simpl);
    try (rewrite Htiff; simpl);
    try (rewrite Hrep; simpl);
    try (unfold call; rewrite Hpng; simpl);
    try (unfold with_open, bind, open_, f_write; rewrite Hopen; simpl);
    try (rewrite Hwrite; simpl);
    eauto.
Qed.

End ExtractIconFacts.

(** ** [int] on the decimal text of an integer *)

Section IntOfStr.

Import PyInt.

Lemma is_digit_range c : is_digit c → (48 ≤ nat_of_ascii c ≤ 57)%nat.
Proof.
  intros [d Hd]. unfold digit_value in Hd.
  destruct (Nat.leb_spec 48 (nat_of_ascii c)); [|done].
  destruct (Nat.leb_spec (nat_of_ascii c) 57); [lia|done].
Qed.

Lemma is_digit_not_char c (x : ascii) :
  is_digit c → ¬ (48 ≤ nat_of_ascii x ≤ 57)%nat → Ascii.eqb c x = false.
Proof.
  intros Hc Hx. destruct (Ascii.eqb_spec c x) as [->|]; [|done].
  by apply is_digit_range in Hc.
Qed.

Lemma is_digit_not_space c : is_digit c → Py_ISSPACE c = false.
Proof.
  intros Hc%is_digit_range. unfold Py_ISSPACE.
  destruct (Nat.eqb_spec (nat_of_ascii c) 32); [lia|].
  destruct (Nat.leb_spec (nat_of_ascii c) 13); [lia|].
  by rewrite andb_false_r.
Qed.

Lemma pretty_N_char_digit (d : N) :
  (d < 10)%N → digit_value (pretty_N_char d) = Some (Z.of_N d).
Proof.
  intros Hd.
  assert (d = 0 ∨ d = 1 ∨ d = 2 ∨ d = 3 ∨ d = 4 ∨ d = 5 ∨ d = 6 ∨ d = 7
          ∨ d = 8 ∨ d = 9)%N as Hcases by lia.
  by destruct Hcases as [->|[->|[->|[->|[->|[->|[->|[->|[->| ->]]]]]]]]].
Qed.

Lemma scan_digits_all l acc k :
  Forall is_digit l →
  scan_digits l false acc k = Some (digits_value l acc, (k + length l)%nat, []).
Proof.
  intros Hl. revert acc k.
  induction Hl as [|c l Hc _ IH]; intros acc k; simpl.
  - by rewrite Nat.add_0_r.
  - rewrite (is_digit_not_char c "_") by (done || (compute; lia)).
    destruct Hc as [d Hd]. rewrite Hd. simpl. rewrite IH. do 3 f_equal. lia.
Qed.

Lemma digits_value_app l c acc :
  digits_value (l ++ [c]) acc
  = (10 * digits_value l acc + default 0 (digit_value c))%Z.
Proof. unfold digits_value. by rewrite fold_left_app. Qed.

(** [pretty_N_go x s] puts the decimal digits of [x] in front of [s]. *)
Lemma pretty_N_go_digits x s :
  ∃ pre,
    list_ascii_of_string (pretty_N_go x s) = pre ++ list_ascii_of_string s
    ∧ Forall is_digit pre
    ∧ (∀ acc, digits_value pre acc
              = (acc * 10 ^ Z.of_nat (length pre) + Z.of_N x)%Z)
    ∧ ((0 < x)%N → pre ≠ []).
Proof.
  revert s. induction (N.lt_wf_0 x) as [x _ IH]; intros s.
  assert (x = 0 ∨ 0 < x)%N as [->|Hpos] by lia.
  - exists []. rewrite pretty_N_go_0. repeat split; try done.
    intros acc. simpl. lia.
  - rewrite pretty_N_go_step by done.
    destruct (IH (x `div` 10)%N) with (s := String (pretty_N_char (x `mod` 10)) s)
      as (pre & Hpre & Hdigits & Hvalue & _).
    { apply N.div_lt; lia. }
    assert (x `mod` 10 < 10)%N as Hmod by (apply N.mod_lt; lia).
    pose proof (pretty_N_char_digit _ Hmod) as Hc.
    exists (pre ++ [pretty_N_char (x `mod` 10)]). repeat split.
    + rewrite Hpre. simpl. by rewrite <-app_assoc.
    + apply Forall_app. split; [done|]. apply Forall_singleton. by eexists.
    + intros acc. rewrite digits_value_app, Hvalue, Hc. simpl.
      rewrite length_app. simpl.
      rewrite Nat2Z.inj_add, Z.pow_add_r by lia.
      rewrite (N.div_mod x 10) at 3 by lia.
      rewrite N2Z.inj_add, N2Z.inj_mul. simpl Z.of_N. lia.
    + intros _. by destruct pre.
Qed.

Lemma is_ascii_digits l : Forall is_digit l → is_ascii l = true.
Proof.
  intros Hl. unfold is_ascii. apply forallb_forall. intros c Hc%list_elem_of_In.
  rewrite Forall_forall in Hl. apply Hl, is_digit_range in Hc.
  apply Nat.ltb_lt. lia.
Qed.

Lemma parse_digits_all max_str_digits sign l :
  l ≠ [] → Forall is_digit l → (length l ≤ 640)%nat →
  parse_digits max_str_digits sign l = inr (sign * digits_value l 0)%Z.
Proof.
  intros Hne Hl Hlen. unfold parse_digits.
  rewrite scan_digits_all by done. simpl.
  destruct l as [|c l]; [done|]. simpl.
  inversion Hl as [|? ? Hc _]; subst.
  rewrite (is_digit_not_char c "_") by (done || (compute; lia)).
  simpl in Hlen.
  destruct (Nat.ltb_spec 640 (S (length l))); [lia|]. done.
Qed.

Lemma length_list_ascii_of_string s :
  length (list_ascii_of_string s) = String.length s.
Proof. induction s; simpl; congruence. Qed.

Lemma pretty_Npos_digits (p : positive) :
  ∃ l, list_ascii_of_string (pretty (N.pos p)) = l
       ∧ l ≠ [] ∧ Forall is_digit l
       ∧ digits_value l 0 = Z.pos p.
Proof.
  unfold pretty, pretty_N. destruct (decide (N.pos p = 0%N)); [done|].
  destruct (pretty_N_go_digits (N.pos p) "") as (l & Hl & Hdigits & Hvalue & Hne).
  simpl in Hl. rewrite app_nil_r in Hl.
  exists l. repeat split; [done|by apply Hne|done|].
  rewrite Hvalue. simpl Z.of_N. lia.
Qed.

(** [int(str(n)) == n]: the decimal text of an integer is accepted and
    gives the integer back. *)
Lemma parse_pretty max_str_digits (n : Z) :
  (String.length (pretty n) ≤ 640)%nat →
  parse max_str_digits (pretty n) = inr n.
Proof.
  destruct n as [|p|p]; [done| |];
    [change (pretty (Z.pos p)) with (pretty (N.pos p))
    |change (pretty (Z.neg p)) with ("-" +:+ pretty (N.pos p))];
    intros Hlen;
    destruct (pretty_Npos_digits p) as (l & Hl & Hne & Hdigits & Hvalue);
    unfold parse.
  - rewrite Hl. unfold TransformDecimalAndSpaceToASCII.
    rewrite is_ascii_digits by done.
    destruct l as [|c l]; [done|].
    inversion Hdigits as [|? ? Hc _]; subst.
    simpl. rewrite (is_digit_not_space c) by done.
    unfold split_sign.
    rewrite (is_digit_not_char c "+"), (is_digit_not_char c "-")
      by (done || (compute; lia)).
    rewrite parse_digits_all; try done.
    + by rewrite Hvalue.
    + by rewrite <-Hl, length_list_ascii_of_string.
  - change (list_ascii_of_string ("-" +:+ pretty (N.pos p)))
      with ("-"%char :: list_ascii_of_string (pretty (N.pos p))).
    change (String.length ("-" +:+ pretty (N.pos p)))
      with (S (String.length (pretty (N.pos p)))) in Hlen.
    rewrite Hl.
    unfold TransformDecimalAndSpaceToASCII.
    replace (is_ascii ("-"%char :: l)) with true
      by (simpl; by rewrite (is_ascii_digits l)).
    simpl.
    rewrite parse_digits_all; try done.
    + by rewrite Hvalue.
    + rewrite <-Hl, length_list_ascii_of_string. lia.
Qed.

End IntOfStr.

(** ** The command line *)

Section CommandLineFacts.

Context {NSWorkspace NSImage NSData NSBitmapImageRep : Type}.
Variable h : @Host NSWorkspace NSImage NSData NSBitmapImageRep.
Variable int_max_str_digits : nat.
Variable repr : string → string.

(** [extract_icon] prints nothing on the standard output. *)
Lemma extract_icon_stdout app_path output_path size w r w' :
  extract_icon h app_path output_path size w = (r, w') → stdout w' = stdout w.
Proof.
  pose proof (extract_icon_body_run h app_path output_path (default 64%Z size) w) as Hrun.
  rewrite extract_icon_unfold.
  destruct (extract_icon_body h app_path output_path (default 64%Z size) w)
    as [r1 w1]; simpl in Hrun.
  inversion Hrun as [png | | e w2 Hwr Hout Herr Hfs]; subst.
  - by intros [= <- <-].
  - by intros [= <- <-].
  - destruct (isinstance e ImportError); by intros [= <- <-].
Qed.


Lemma main_with_arguments argv w :
  (3 ≤ length argv)%nat →
  main h int_max_str_digits repr argv w =
    match size_argument int_max_str_digits repr argv with
    | Raise e => (Uncaught e, w)
    | Ret size => report (extract_icon h (argv_at argv 1) (argv_at argv 2) (Some size) w)
    end.
Proof.
  intros Hlen. unfold main.
  destruct (Nat.ltb_spec (length argv) 3); [lia|reflexivity].
Qed.

(** C10. The script does not check the size argument.  When [int]
    rejects the third argument, the [ValueError] it raises is caught by
    nobody: [extract_icon] is not called, no file is written and nothing
    is printed, the usage line included.  When [int] accepts it, the
    integer goes to [extract_icon] as it is, whatever its sign.  [int]
    accepts the decimal text of every integer of up to 640 characters,
    zero and the negative ones included. *)
Theorem main_size_unchecked argv w :
  (3 < length argv)%nat →
  (∀ err, PyInt.parse int_max_str_digits (argv_at argv 3) = inl err →
     ∃ e, exn_class e = ValueError
          ∧ main h int_max_str_digits repr argv w = (Uncaught e, w))
  ∧ (∀ n, PyInt.parse int_max_str_digits (argv_at argv 3) = inr n →
       main h int_max_str_digits repr argv w
       = report (extract_icon h (argv_at argv 1) (argv_at argv 2) (Some n) w))
  ∧ (∀ n : Z, (String.length (pretty n) ≤ 640)%nat →
       PyInt.parse int_max_str_digits (pretty n) = inr n).
Proof.
  intros Hlen.
  assert (size_argument int_max_str_digits repr argv
          = int int_max_str_digits repr (argv_at argv 3)) as Hsize.
  { unfold size_argument.
    destruct (Nat.ltb_spec 3 (length argv)); [reflexivity|lia]. }
  split; [|split; [|apply parse_pretty]].
  - intros err Herr.
    rewrite main_with_arguments by lia. rewrite Hsize.
    unfold int. rewrite Herr.
    destruct err; (eexists; split; [|reflexivity]); reflexivity.
  - intros n Hn.
    rewrite main_with_arguments by lia. rewrite Hsize.
    unfold int. by rewrite Hn.
Qed.

End CommandLineFacts.

(** ** The feature-flag models *)

Section FeatureFlagsFacts.

Import FeatureFlags.

Lemma fails_with_ap_l {A B} err (f : Validated (A → B)) (x : Validated A) :
  fails_with err f → fails_with err (f <*> x).
Proof.
  intros (errors & -> & Hin). destruct x as [errors'|a]; simpl.
  - exists (errors ++ errors'). split; [done|]. apply elem_of_app; by left.
  - by exists errors.
Qed.

Lemma fails_with_ap_r {A B} err (f : Validated (A → B)) (x : Validated A) :
  fails_with err x → fails_with err (f <*> x).
Proof.
  intros (errors & -> & Hin). destruct f as [errors'|f]; simpl.
  - exists (errors' ++ errors). split; [done|]. apply elem_of_app; by right.
  - by exists errors.
Qed.

Lemma fails_with_at_loc {A} name err (r : Validated A) :
  fails_with err r → fails_with (mkError (name :: loc err) (type err)) (at_loc name r).
Proof.
  intros (errors & -> & Hin). simpl. eexists; split; [done|].
  apply list_elem_of_fmap. by exists err.
Qed.

Lemma Field_required_missing {A} name (validator : pyval → Validated A) data :
  data !! name = None →
  fails_with (mkError [name] missing) (Field_required name validator data).
Proof.
  intros Hmissing. unfold Field_required. rewrite Hmissing.
  eexists; split; [done|]. apply list_elem_of_singleton. done.
Qed.

Lemma Field_required_present {A} name (validator : pyval → Validated A) data v a :
  data !! name = Some v → validator v = inr a →
  Field_required name validator data = inr a.
Proof. intros Hv Ha. unfold Field_required. by rewrite Hv, Ha. Qed.

(** A rollout-info object that lacks one of its four fields is refused. *)
Lemma new_FeatureFlagsRolloutInfo_missing data name :
  name ∈ ["websocket_enabled"; "evidence_validation_enabled";
          "billing_enabled"; "hmac_enabled"] →
  data !! name = None →
  fails_with (mkError [name] missing) (new_FeatureFlagsRolloutInfo data).
Proof.
  intros Hname Hmissing. unfold new_FeatureFlagsRolloutInfo.
  repeat (apply elem_of_cons in Hname as [-> | Hname]).
  - do 3 apply fails_with_ap_l. apply fails_with_ap_r.
    by apply Field_required_missing.
  - do 2 apply fails_with_ap_l. apply fails_with_ap_r.
    by apply Field_required_missing.
  - apply fails_with_ap_l. apply fails_with_ap_r.
    by apply Field_required_missing.
  - apply fails_with_ap_r. by apply Field_required_missing.
  - by apply elem_of_nil in Hname.
Qed.

(** C8. Building a [FeatureFlagsResponse] fails with a [missing] error
    when [flags] or [rollout_info] is left out, and when the rollout
    information lacks one of [websocket_enabled],
    [evidence_validation_enabled], [billing_enabled], [hmac_enabled]
    (whether it is built on its own or from the [dict] given for
    [rollout_info]).  With [user_id] left out and the required fields
    present with values of their types, building succeeds. *)
Theorem FeatureFlagsResponse_required_fields (data : gmap string pyval) :
  (data !! "flags" = None →
     fails_with (mkError ["flags"] missing) (new_FeatureFlagsResponse data))
  ∧ (data !! "rollout_info" = None →
       fails_with (mkError ["rollout_info"] missing) (new_FeatureFlagsResponse data))
  ∧ (∀ (info : gmap string pyval) name,
       name ∈ ["websocket_enabled"; "evidence_validation_enabled";
               "billing_enabled"; "hmac_enabled"] →
       info !! name = None →
       fails_with (mkError [name] missing) (new_FeatureFlagsRolloutInfo info)
       ∧ (data !! "rollout_info" = Some (PDict info) →
          fails_with (mkError ["rollout_info"; name] missing)
            (new_FeatureFlagsResponse data)))
  ∧ (∀ (info : gmap string pyval) v1 v2 v3 v4 b1 b2 b3 b4,
       info !! "websocket_enabled" = Some v1 → validate_bool v1 = inr b1 →
       info !! "evidence_validation_enabled" = Some v2 → validate_bool v2 = inr b2 →
       info !! "billing_enabled" = Some v3 → validate_bool v3 = inr b3 →
       info !! "hmac_enabled" = Some v4 → validate_bool v4 = inr b4 →
       new_FeatureFlagsRolloutInfo info = inr (mkFeatureFlagsRolloutInfo b1 b2 b3 b4))
  ∧ (∀ vf f vr r,
       data !! "user_id" = None →
       data !! "flags" = Some vf → validate_dict_str_bool vf = inr f →
       data !! "rollout_info" = Some vr → validate_FeatureFlagsRolloutInfo vr = inr r →
       new_FeatureFlagsResponse data = inr (mkFeatureFlagsResponse f None r)).
Proof.
  split; [|split; [|split; [|split]]].
  - intros Hmissing. unfold new_FeatureFlagsResponse.
    do 2 apply fails_with_ap_l. apply fails_with_ap_r.
    by apply Field_required_missing.
  - intros Hmissing. unfold new_FeatureFlagsResponse.
    apply fails_with_ap_r. by apply Field_required_missing.
  - intros info name Hname Hmissing.
    pose proof (new_FeatureFlagsRolloutInfo_missing info name Hname Hmissing) as Hinfo.
    split; [done|].
    intros Hrollout. unfold new_FeatureFlagsResponse.
    apply fails_with_ap_r. unfold Field_required. rewrite Hrollout.
    by apply (fails_with_at_loc "rollout_info") in Hinfo.
  - intros info v1 v2 v3 v4 b1 b2 b3 b4 H1 Hb1 H2 Hb2 H3 Hb3 H4 Hb4.
    unfold new_FeatureFlagsRolloutInfo.
    rewrite (Field_required_present _ _ _ _ _ H1 Hb1),
      (Field_required_present _ _ _ _ _ H2 Hb2),
      (Field_required_present _ _ _ _ _ H3 Hb3),
      (Field_required_present _ _ _ _ _ H4 Hb4).
    reflexivity.
  - intros vf f vr r Huser Hflags Hf Hrollout Hr.
    unfold new_FeatureFlagsResponse.
    rewrite (Field_required_present _ _ _ _ _ Hflags Hf),
      (Field_required_present _ _ _ _ _ Hrollout Hr).
    unfold Field_default. by rewrite Huser.
Qed.

(** C9. A [FeatureFlagsResponse] built without [user_id] has [None] as
    its [user_id]. *)
Theorem FeatureFlagsResponse_user_id_default (data : gmap string pyval) response :
  data !! "user_id" = None →
  new_FeatureFlagsResponse data = inr response →
  user_id response = None.
Proof.
  intros Huser. unfold new_FeatureFlagsResponse, Field_default. rewrite Huser.
  destruct (Field_required "flags" validate_dict_str_bool data) as [e1|f];
    destruct (Field_required "rollout_info" validate_FeatureFlagsRolloutInfo data)
      as [e2|r]; simpl; try discriminate.
  by intros [= <-].
Qed.

End FeatureFlagsFacts.

(** ** The script run on the small hosts *)

Section Runs.

Import TestHost.

Example run_safari :
  main host 4300 repr ["extract-icon.py"; safari; "/icon.png"; "128"] w0
  = (Exit 0,
     mkWorld {[ "/icon.png" := png_of_size (128, 128)%Z ]}
       [("/icon.png", png_of_size (128, 128)%Z)] ("OK" +:+ nl) "").
Proof. vm_compute. reflexivity. Qed.

Example run_read_only :
  main host_read_only 4300 repr ["extract-icon.py"; safari; "/icon.png"] w0
  = (Exit 1,
     mkWorld ∅ [] ""
       ("Error: [Errno 13] Permission denied: '/icon.png'" +:+ nl)).
Proof. vm_compute. reflexivity. Qed.

Example run_without_arguments :
  main host 4300 repr ["extract-icon.py"; safari] w0
  = (Exit 1, mkWorld ∅ [] "" (usage +:+ nl)).
Proof. vm_compute. reflexivity. Qed.





Lemma extract_icon_without_AppKit_witness :
  extract_icon host_without_pyobjc safari "/icon.png" None w0 = (Ret false, w0).
Proof.
  apply (extract_icon_without_AppKit host_without_pyobjc
           safari "/icon.png" None w0 no_AppKit); reflexivity.
Defined.

Lemma main_size_unchecked_witness :
  (3 < length ["extract-icon.py"; safari; "/icon.png"; "64px"])%nat ∧
  ∃ e, exn_class e = ValueError
       ∧ main host 4300 repr ["extract-icon.py"; safari; "/icon.png"; "64px"] w0
         = (Uncaught e, w0).
Proof.
  split; [simpl; lia|].
  refine (proj1 (main_size_unchecked host 4300 repr
                   ["extract-icon.py"; safari; "/icon.png"; "64px"] w0 _)
            PyInt.InvalidLiteral _); [simpl; lia | reflexivity].
Defined.

Lemma FeatureFlagsResponse_user_id_default_witness :
  FeatureFlags.user_id
    (FeatureFlags.mkFeatureFlagsResponse
       {[ "websocket_execution" := false; "hmac_security" := true ]} None
       (FeatureFlags.mkFeatureFlagsRolloutInfo false true false true)) = None.
Proof.
  apply (FeatureFlagsResponse_user_id_default
           (delete "user_id"
              (<["flags" := FeatureFlags.PDict
                    {[ "websocket_execution" := FeatureFlags.PBool false;
                       "hmac_security" := FeatureFlags.PStr "Yes" ]}]>
                 FeatureFlags.example_data)));
    vm_compute; reflexivity.
Defined.

Example FeatureFlagsResponse_examples :
  FeatureFlags.new_FeatureFlagsResponse FeatureFlags.example_data
  = inr (FeatureFlags.mkFeatureFlagsResponse
           {[ "websocket_execution" := false; "evidence_validation" := true;
              "billing_enforcement" := false; "hmac_security" := true ]}
           (Some "desktop-user")
           (FeatureFlags.mkFeatureFlagsRolloutInfo false true false true))
  ∧ FeatureFlags.new_FeatureFlagsResponse (delete "flags" FeatureFlags.example_data)
    = inl [FeatureFlags.mkError ["flags"] FeatureFlags.missing]
  ∧ FeatureFlags.new_FeatureFlagsResponse
      (<["rollout_info" := FeatureFlags.PDict
            {[ "websocket_enabled" := FeatureFlags.PBool true ]}]>
         (delete "flags" FeatureFlags.example_data))
    = inl [FeatureFlags.mkError ["flags"] FeatureFlags.missing;
           FeatureFlags.mkError ["rollout_info"; "evidence_validation_enabled"]
             FeatureFlags.missing;
           FeatureFlags.mkError ["rollout_info"; "billing_enabled"] FeatureFlags.missing;
           FeatureFlags.mkError ["rollout_info"; "hmac_enabled"] FeatureFlags.missing].
Proof. repeat split; vm_compute; reflexivity. Qed.

End Runs.
Example int_examples :
  PyInt.parse 4300 "64" = inr 64%Z ∧
  PyInt.parse 4300 "0" = inr 0%Z ∧
  PyInt.parse 4300 "-5" = inr (-5)%Z ∧
  PyInt.parse 4300 " +1_000 " = inr 1000%Z ∧
  PyInt.parse 4300 "007" = inr 7%Z ∧
  PyInt.parse 4300 "" = inl PyInt.InvalidLiteral ∧
  PyInt.parse 4300 "abc" = inl PyInt.InvalidLiteral ∧
  PyInt.parse 4300 "64.5" = inl PyInt.InvalidLiteral ∧
  PyInt.parse 4300 "6 4" = inl PyInt.InvalidLiteral ∧
  PyInt.parse 4300 "1__0" = inl PyInt.InvalidLiteral ∧
  PyInt.parse 4300 "_1" = inl PyInt.InvalidLiteral ∧
  PyInt.parse 4300 "1_" = inl PyInt.InvalidLiteral ∧
  PyInt.parse 4300 "-" = inl PyInt.InvalidLiteral ∧
  PyInt.parse 4300 "0x40" = inl PyInt.InvalidLiteral.
Proof. repeat split; reflexivity. Qed.

(** * More on the same code *)

(** ** Every way [extract_icon] can end *)

Section ExtractIconRuns.

Context {NSWorkspace NSImage NSData NSBitmapImageRep : Type}.
Variable h : @Host NSWorkspace NSImage NSData NSBitmapImageRep.



(** Once the encoding went through, what is left of the body is the
    [with] block. *)
Lemma extract_icon_body_encoded app_path output_path size png_data w :
  encoded h app_path size png_data →
  extract_icon_body h app_path output_path size w
  = bind (with_open h output_path (λ f, f_write h f png_data)) (λ _, ret true) w.
Proof.
  intros (icon & tiff & rep & (icon0 & (Himport & ws & Hws & Hicon) & Hset)
          & Htiff & Hrep & Hpng).
  unfold extract_icon_body, bind at 1 2 3 4 5 6 7, from_AppKit_import, call, ret.
  rewrite Himport, Hws, Hicon, Hset, Htiff, Hrep. simpl. unfold call.
  by rewrite Hpng.
Qed.






(** X7. An [ImportError] raised by any statement of the body, not only
    by the import, is taken for a missing AppKit: [extract_icon] returns
    [False] and prints nothing. *)
Theorem extract_icon_silent_on_any_ImportError app_path output_path size w e :
  raised_during h app_path output_path (default 64%Z size) e →
  isinstance e ImportError = true →
  ∃ w', extract_icon h app_path output_path size w = (Ret false, w')
        ∧ stderr w' = stderr w ∧ stdout w' = stdout w.
Proof.
  intros Hraised Hclass.
  destruct (raised_during_body h _ _ _ w _ Hraised) as [w1 Hbody].
  pose proof (extract_icon_body_run h app_path output_path (default 64%Z size) w) as Hrun.
  rewrite extract_icon_unfold, Hbody, Hclass.
  rewrite Hbody in Hrun; simpl in Hrun.
  inversion Hrun as [ | | e' w' Hwr Hout Herr Hfs]; subst. eauto.
Qed.


End ExtractIconRuns.

(** ** Characters [int] refuses *)

Section SizeArgumentFacts.

Import PyInt SizeArgument.

Lemma ascii_size_char_false c :
  ascii_size_char c = false →
  digit_value c = None ∧ Ascii.eqb c "+"%char = false ∧ Ascii.eqb c "-"%char = false
  ∧ Ascii.eqb c "_"%char = false ∧ Py_ISSPACE c = false.
Proof.
  unfold ascii_size_char. rewrite !orb_false_iff.
  intros [[[[Hd ->] ->] ->] ->]. repeat split.
  apply bool_decide_eq_false in Hd.
  destruct (digit_value c); [|done]. destruct Hd. by eexists.
Qed.

Lemma size_char_ascii c : size_char c = false → ascii_size_char c = false.
Proof.
  unfold size_char, ascii_size_char. rewrite orb_false_iff. by intros [-> _].
Qed.

Lemma transform_loop_junk c l :
  c ∈ l → size_char c = false →
  ∃ c', c' ∈ transform_loop l ∧ ascii_size_char c' = false.
Proof.
  intros Hin Hc. induction l as [|x l IH]; [by apply elem_of_nil in Hin|].
  simpl. destruct (nat_of_ascii x <? 127)%nat.
  - apply elem_of_cons in Hin as [<- | Hin].
    + exists c. split; [by left|by apply size_char_ascii].
    + destruct (IH Hin) as (c' & Hc' & Hjunk). exists c'. split; [by right|done].
  - destruct (Py_UNICODE_ISSPACE_high x) eqn:Hx.
    + apply elem_of_cons in Hin as [<- | Hin].
      * unfold size_char in Hc. rewrite Hx in Hc. by rewrite orb_true_r in Hc.
      * destruct (IH Hin) as (c' & Hc' & Hjunk). exists c'. split; [by right|done].
    + exists "?"%char. split; [by left|done].
Qed.

Lemma transform_junk c l :
  c ∈ l → size_char c = false →
  ∃ c', c' ∈ TransformDecimalAndSpaceToASCII l ∧ ascii_size_char c' = false.
Proof.
  intros Hin Hc. unfold TransformDecimalAndSpaceToASCII.
  destruct (is_ascii l); [|by apply (transform_loop_junk c)].
  exists c. split; [done|by apply size_char_ascii].
Qed.

Lemma skip_space_junk c l :
  c ∈ l → ascii_size_char c = false → c ∈ skip_space l.
Proof.
  intros Hin (_ & _ & _ & _ & Hspace)%ascii_size_char_false.
  induction l as [|x l IH]; [done|]. simpl.
  destruct (Py_ISSPACE x) eqn:Hx; [|done].
  apply elem_of_cons in Hin as [<- | Hin]; [congruence|by apply IH].
Qed.

Lemma split_sign_junk c l :
  c ∈ l → ascii_size_char c = false → c ∈ (split_sign l).2.
Proof.
  intros Hin (_ & Hplus & Hminus & _)%ascii_size_char_false.
  destruct l as [|x l]; [done|]. simpl.
  destruct (Ascii.eqb x "+") eqn:Hx1; simpl.
  { apply elem_of_cons in Hin as [<- | Hin]; [congruence|done]. }
  destruct (Ascii.eqb x "-") eqn:Hx2; simpl; [|done].
  apply elem_of_cons in Hin as [<- | Hin]; [congruence|done].
Qed.

Lemma scan_digits_junk c l prev acc k :
  c ∈ l → ascii_size_char c = false →
  scan_digits l prev acc k = None
  ∨ ∃ v d rest, scan_digits l prev acc k = Some (v, d, rest) ∧ c ∈ rest.
Proof.
  intros Hin Hc. pose proof (ascii_size_char_false c Hc) as (Hd & _ & _ & Hus & _).
  revert prev acc k. induction l as [|x l IH]; intros prev acc k;
    [by apply elem_of_nil in Hin|].
  simpl. destruct (Ascii.eqb x "_") eqn:Hx.
  - destruct prev; [by left|].
    apply elem_of_cons in Hin as [<- | Hin]; [congruence|by apply IH].
  - destruct (digit_value x) as [d|] eqn:Hdx.
    + apply elem_of_cons in Hin as [<- | Hin]; [congruence|by apply IH].
    + destruct prev; [by left|]. right. eauto.
Qed.

Lemma parse_digits_junk max_str_digits sign c l :
  c ∈ l → ascii_size_char c = false →
  parse_digits max_str_digits sign l = inl InvalidLiteral.
Proof.
  intros Hin Hc. unfold parse_digits.
  destruct (leading_underscore l); [done|].
  destruct (scan_digits_junk c l false 0%Z 0 Hin Hc) as [-> | (v & d & rest & -> & Hrest)];
    [done|].
  destruct (d =? 0)%nat; [done|].
  apply (skip_space_junk _ _ Hrest) in Hc.
  destruct (skip_space rest); [by apply elem_of_nil in Hc|done].
Qed.

(** A character that is no digit, sign, underscore or white space,
    anywhere in the string, makes the string an invalid literal. *)
Lemma parse_junk max_str_digits s c :
  c ∈ list_ascii_of_string s → size_char c = false →
  parse max_str_digits s = inl InvalidLiteral.
Proof.
  intros Hin Hc. unfold parse.
  destruct (transform_junk c _ Hin Hc) as (c' & Hin' & Hc').
  apply (skip_space_junk _ _ Hin') in Hc' as Hin''.
  apply (split_sign_junk _ _ Hin'') in Hc' as Hin3.
  destruct (split_sign _) as [sign rest]. simpl in Hin3.
  by apply (parse_digits_junk _ _ c').
Qed.

End SizeArgumentFacts.

(** ** Every way the script can end *)

Section MainRuns.

Context {NSWorkspace NSImage NSData NSBitmapImageRep : Type}.
Variable h : @Host NSWorkspace NSImage NSData NSBitmapImageRep.
Variable int_max_str_digits : nat.
Variable repr : string → string.

(** X11. A size argument that holds, anywhere, a character other than a
    digit, a sign, an underscore or white space (a decimal point, a
    unit, a letter) ends the script with an uncaught [ValueError],
    before anything is written or printed. *)
Theorem main_rejects_size_with_other_characters argv w c :
  (3 < length argv)%nat →
  c ∈ list_ascii_of_string (argv_at argv 3) →
  SizeArgument.size_char c = false →
  ∃ e, exn_class e = ValueError
       ∧ main h int_max_str_digits repr argv w = (Uncaught e, w).
Proof.
  intros Hlen Hin Hc.
  rewrite main_with_arguments by lia.
  unfold size_argument. destruct (Nat.ltb_spec 3 (length argv)); [|lia].
  unfold int. rewrite (parse_junk _ _ c Hin Hc).
  eexists. split; [|reflexivity]. reflexivity.
Qed.

End MainRuns.

(** ** Building and dumping the models *)

Section FeatureFlagsMore.

Import FeatureFlags FeatureFlagsDump.

Lemma ap_inr {A B} (f : Validated (A → B)) (x : Validated A) b :
  f <*> x = inr b ↔ ∃ g a, f = inr g ∧ x = inr a ∧ b = g a.
Proof.
  split.
  - destruct f as [e1|g], x as [e2|a]; simpl; try discriminate.
    intros [= <-]. eauto.
  - by intros (g & a & -> & -> & ->).
Qed.

Lemma at_loc_inr {A} name (r : Validated A) a : at_loc name r = inr a ↔ r = inr a.
Proof. destruct r; simpl; split; congruence. Qed.

Lemma Field_required_inr {A} name (validator : pyval → Validated A) data a :
  Field_required name validator data = inr a
  ↔ ∃ v, data !! name = Some v ∧ validator v = inr a.
Proof.
  unfold Field_required. destruct (data !! name) as [v|].
  - rewrite at_loc_inr. split; [eauto|]. by intros (v' & [= <-] & Hv).
  - split; [done|]. by intros (v & [=] & _).
Qed.

(** X12. A rollout-info object is built exactly when each of its four
    fields is given with a value [bool] validation takes, and its fields
    are then the validated values. *)
Theorem new_FeatureFlagsRolloutInfo_inr (data : gmap string pyval) info :
  new_FeatureFlagsRolloutInfo data = inr info
  ↔ (∃ v, data !! "websocket_enabled" = Some v
          ∧ validate_bool v = inr (websocket_enabled info))
    ∧ (∃ v, data !! "evidence_validation_enabled" = Some v
            ∧ validate_bool v = inr (evidence_validation_enabled info))
    ∧ (∃ v, data !! "billing_enabled" = Some v
            ∧ validate_bool v = inr (billing_enabled info))
    ∧ (∃ v, data !! "hmac_enabled" = Some v
            ∧ validate_bool v = inr (hmac_enabled info)).
Proof.
  unfold new_FeatureFlagsRolloutInfo. split.
  - intros (g3 & b4 & (g2 & b3 & (g1 & b2 & (g0 & b1 & [= <-] & H1 & ->)%ap_inr
                                     & H2 & ->)%ap_inr & H3 & ->)%ap_inr
            & H4 & ->)%ap_inr.
    simpl. by rewrite <-!Field_required_inr.
  - rewrite <-!Field_required_inr. intros (-> & -> & -> & ->).
    by destruct info.
Qed.

Lemma Field_default_inr {A} name (d : A) (validator : pyval → Validated A) data a :
  Field_default name d validator data = inr a
  ↔ match data !! name with
    | None => a = d
    | Some v => validator v = inr a
    end.
Proof.
  unfold Field_default. destruct (data !! name) as [v|].
  - apply at_loc_inr.
  - split; congruence.
Qed.

(** X13. A response is built exactly when [flags] and [rollout_info] are
    given with values their validation takes and [user_id], if given,
    has a value [Optional[str]] validation takes; the fields of the
    response are then the validated values, with [None] for a [user_id]
    that was left out. *)
Theorem new_FeatureFlagsResponse_inr (data : gmap string pyval) response :
  new_FeatureFlagsResponse data = inr response
  ↔ (∃ v, data !! "flags" = Some v
          ∧ validate_dict_str_bool v = inr (flags response))
    ∧ match data !! "user_id" with
      | None => user_id response = None
      | Some v => validate_optional_str v = inr (user_id response)
      end
    ∧ (∃ v, data !! "rollout_info" = Some v
            ∧ validate_FeatureFlagsRolloutInfo v = inr (rollout_info response)).
Proof.
  unfold new_FeatureFlagsResponse. split.
  - intros (g2 & r & (g1 & u & (g0 & f & [= <-] & H1 & ->)%ap_inr
                       & H2 & ->)%ap_inr & H3 & ->)%ap_inr.
    simpl. rewrite <-!Field_required_inr.
    by apply Field_default_inr in H2.
  - rewrite <-!Field_required_inr. intros (-> & Huser & ->).
    apply (Field_default_inr "user_id" None) in Huser. rewrite Huser.
    by destruct response.
Qed.

Lemma concat_nil {A} (ls : list (list A)) :
  Forall (λ l, l = []) ls → concat ls = [].
Proof. induction 1 as [|l ls -> _ IH]; [done|]. simpl. done. Qed.

Lemma elem_of_concat {A} (x : A) (ls : list (list A)) :
  x ∈ concat ls → ∃ l, l ∈ ls ∧ x ∈ l.
Proof.
  induction ls as [|l ls IH]; simpl; [by intros ?%elem_of_nil|].
  intros [Hx | Hx]%elem_of_app.
  - exists l. split; [by left|done].
  - destruct (IH Hx) as (l' & Hl' & Hx'). exists l'. split; [by right|done].
Qed.

Lemma concat_nil_inv {A} (ls : list (list A)) :
  concat ls = [] → Forall (λ l, l = []) ls.
Proof.
  induction ls as [|l ls IH]; [done|]. simpl.
  intros [-> Hls]%app_eq_nil. constructor; [done|by apply IH].
Qed.

(** A value that fails as a [bool] is reported with an error. *)
Lemma validate_bool_errors v errors : validate_bool v = inl errors → errors ≠ [].
Proof. unfold validate_bool. repeat case_match; by intros [= <-]. Qed.

(** X15. For a [dict] whose keys are all [str]: [Dict[str, bool]]
    validation takes it exactly when every value in it passes [bool]
    validation; the result then has the same keys, each with its
    validated value. *)
Theorem validate_dict_str_bool_keeps_keys (d : gmap string pyval) :
  ((∃ m, validate_dict_str_bool (PDict d) = inr m)
   ↔ ∀ k v, d !! k = Some v → is_Some (as_bool v))
  ∧ ∀ m, validate_dict_str_bool (PDict d) = inr m →
         dom m = dom d ∧ ∀ k, m !! k = d !! k ≫= as_bool.
Proof.
  assert (∀ m, validate_dict_str_bool (PDict d) = inr m →
               (∀ k v, d !! k = Some v → is_Some (as_bool v))
               ∧ ∀ k, m !! k = d !! k ≫= as_bool) as Hinr.
  { intros m. simpl.
    destruct (concat _) as [|e errors] eqn:Herrors; [|done].
    intros [= <-]. split.
    - intros k v Hk. apply concat_nil_inv in Herrors.
      rewrite Forall_fmap, Forall_forall in Herrors.
      specialize (Herrors (k, v)). simpl in Herrors.
      unfold as_bool. destruct (validate_bool v) as [errs|b] eqn:Hv; [|by eexists].
      simpl in Herrors. exfalso.
      apply (validate_bool_errors v errs Hv).
      assert ((λ e, mkError (k :: loc e) (type e)) <$> errs = []) as Hnil
        by (apply Herrors; by apply elem_of_map_to_list).
      by apply fmap_nil_inv in Hnil.
    - intros k. rewrite lookup_omap. done. }
  split; [split|].
  - intros [m Hm]. by apply Hinr in Hm as [? _].
  - intros Hall. simpl.
    rewrite concat_nil; [by eexists|].
    rewrite Forall_fmap. apply Forall_forall. intros [k v] Hkv%elem_of_map_to_list.
    simpl. destruct (Hall k v Hkv) as [b Hb]. unfold as_bool in Hb.
    by destruct (validate_bool v).
  - intros m Hm. destruct (Hinr m Hm) as [Hall Hlookup]. split; [|done].
    apply set_eq. intros k. rewrite !elem_of_dom, Hlookup.
    destruct (d !! k) as [v|] eqn:Hk; simpl.
    + split; [by eexists|]. intros _. by apply (Hall k).
    + split; by intros [? ?].
Qed.

Lemma validate_dict_str_bool_dump (m : gmap string bool) :
  validate_dict_str_bool (PDict (PBool <$> m)) = inr m.
Proof.
  simpl. rewrite concat_nil.
  - f_equal. apply map_eq. intros k.
    rewrite lookup_omap, lookup_fmap. by destruct (m !! k).
  - rewrite Forall_fmap. apply Forall_forall. intros [k v] Hkv%elem_of_map_to_list.
    rewrite lookup_fmap in Hkv. destruct (m !! k); simplify_eq/=. done.
Qed.

Lemma new_FeatureFlagsRolloutInfo_of_dump info :
  new_FeatureFlagsRolloutInfo (dump_FeatureFlagsRolloutInfo info) = inr info.
Proof. destruct info. vm_compute. reflexivity. Qed.

(** X16. Building a response from the dump of a response gives that
    response back, and likewise for the rollout information. *)
Theorem new_FeatureFlagsResponse_dump response :
  new_FeatureFlagsResponse (dump_FeatureFlagsResponse response) = inr response
  ∧ new_FeatureFlagsRolloutInfo (dump_FeatureFlagsRolloutInfo (rollout_info response))
    = inr (rollout_info response).
Proof.
  split; [|apply new_FeatureFlagsRolloutInfo_of_dump].
  destruct response as [f u info].
  unfold new_FeatureFlagsResponse, Field_required, Field_default.
  assert (dump_FeatureFlagsResponse (mkFeatureFlagsResponse f u info) !! "flags"
          = Some (PDict (PBool <$> f))) as -> by reflexivity.
  assert (dump_FeatureFlagsResponse (mkFeatureFlagsResponse f u info) !! "user_id"
          = Some (dump_optional_str u)) as -> by reflexivity.
  assert (dump_FeatureFlagsResponse (mkFeatureFlagsResponse f u info) !! "rollout_info"
          = Some (PDict (dump_FeatureFlagsRolloutInfo info))) as -> by reflexivity.
  rewrite validate_dict_str_bool_dump.
  unfold validate_FeatureFlagsRolloutInfo.
  rewrite new_FeatureFlagsRolloutInfo_of_dump.
  by destruct u.
Qed.

Lemma errors_of_ap {A B} (f : Validated (A → B)) (x : Validated A) :
  errors_of (f <*> x) = errors_of f ++ errors_of x.
Proof. destruct f, x; simpl; by rewrite ?app_nil_r. Qed.

(** Where the errors of one field come from. *)
Lemma Field_required_errors {A} name (validator : pyval → Validated A) data e :
  e ∈ errors_of (Field_required name validator data) →
  (data !! name = None ∧ e = mkError [name] missing)
  ∨ ∃ v e0, data !! name = Some v ∧ e0 ∈ errors_of (validator v)
            ∧ e = mkError (name :: loc e0) (type e0).
Proof.
  unfold Field_required. destruct (data !! name) as [v|].
  - destruct (validator v) as [errors|a] eqn:Hv; simpl; [|by intros ?%elem_of_nil].
    intros (e0 & -> & He0)%list_elem_of_fmap. right. exists v, e0. by rewrite Hv.
  - simpl. intros ->%list_elem_of_singleton. by left.
Qed.

Lemma Field_default_errors {A} name (d : A) (validator : pyval → Validated A) data e :
  e ∈ errors_of (Field_default name d validator data) →
  ∃ v e0, data !! name = Some v ∧ e0 ∈ errors_of (validator v)
          ∧ e = mkError (name :: loc e0) (type e0).
Proof.
  unfold Field_default. destruct (data !! name) as [v|]; [|by intros ?%elem_of_nil].
  destruct (validator v) as [errors|a] eqn:Hv; simpl; [|by intros ?%elem_of_nil].
  intros (e0 & -> & He0)%list_elem_of_fmap. exists v, e0. by rewrite Hv.
Qed.

Lemma validate_bool_error_type v e :
  e ∈ errors_of (validate_bool v) → type e ≠ missing.
Proof.
  unfold validate_bool. repeat case_match; simpl;
    try (by intros ?%elem_of_nil); by intros ->%list_elem_of_singleton.
Qed.

Lemma validate_dict_str_bool_error_type v e :
  e ∈ errors_of (validate_dict_str_bool v) → type e ≠ missing.
Proof.
  destruct v as [| | | |d|]; simpl; try (by intros ->%list_elem_of_singleton).
  destruct (concat _) as [|e' errors] eqn:Herrors; [by intros ?%elem_of_nil|].
  simpl. rewrite <-Herrors.
  intros (l & (kv & -> & _)%list_elem_of_fmap & He)%elem_of_concat.
  destruct (validate_bool kv.2) as [errs|b] eqn:Hv; simpl in He;
    [|by apply elem_of_nil in He].
  apply list_elem_of_fmap in He as (e0 & -> & He0). simpl.
  apply (validate_bool_error_type kv.2). by rewrite Hv.
Qed.

Lemma new_FeatureFlagsRolloutInfo_error_loc data e :
  e ∈ errors_of (new_FeatureFlagsRolloutInfo data) → loc e ≠ [].
Proof.
  unfold new_FeatureFlagsRolloutInfo. rewrite !errors_of_ap. simpl.
  rewrite !elem_of_app.
  intros [[[He|He]|He]|He];
    apply Field_required_errors in He as [[_ ->] | (v & e0 & _ & _ & ->)]; done.
Qed.

Lemma validate_FeatureFlagsRolloutInfo_error v e :
  e ∈ errors_of (validate_FeatureFlagsRolloutInfo v) →
  loc e ≠ [] ∨ type e ≠ missing.
Proof.
  destruct v as [| | | |d|]; simpl;
    try (intros ->%list_elem_of_singleton; by right);
    try (by intros ?%elem_of_nil).
  intros He. left. by apply (new_FeatureFlagsRolloutInfo_error_loc d).
Qed.

(** Validation never fails without saying why. *)
Lemma validate_dict_str_bool_errors v errors :
  validate_dict_str_bool v = inl errors → errors ≠ [].
Proof.
  destruct v as [| | | |d|]; simpl; try (by intros [= <-]).
  destruct (concat _); [done|]. by intros [= <-].
Qed.

Lemma Field_required_nonempty {A} name (validator : pyval → Validated A) data errors :
  (∀ v errs, validator v = inl errs → errs ≠ []) →
  Field_required name validator data = inl errors → errors ≠ [].
Proof.
  intros Hvalidator. unfold Field_required.
  destruct (data !! name) as [v|]; [|by intros [= <-]].
  destruct (validator v) as [errs|a] eqn:Hv; simpl; [|done].
  intros [= <-]. apply Hvalidator in Hv. by destruct errs.
Qed.

Lemma ap_nonempty {A B} (f : Validated (A → B)) (x : Validated A) errors :
  (∀ e, f = inl e → e ≠ []) → (∀ e, x = inl e → e ≠ []) →
  f <*> x = inl errors → errors ≠ [].
Proof.
  intros Hf Hx. destruct f as [e1|g], x as [e2|a]; simpl; intros [= <-].
  - specialize (Hf e1 eq_refl). by destruct e1.
  - by apply Hf.
  - by apply Hx.
Qed.

Lemma new_FeatureFlagsRolloutInfo_nonempty data errors :
  new_FeatureFlagsRolloutInfo data = inl errors → errors ≠ [].
Proof.
  unfold new_FeatureFlagsRolloutInfo.
  apply ap_nonempty;
    [|intros ?; apply Field_required_nonempty, validate_bool_errors].
  intros ?. apply ap_nonempty;
    [|intros ?; apply Field_required_nonempty, validate_bool_errors].
  intros ?. apply ap_nonempty;
    [|intros ?; apply Field_required_nonempty, validate_bool_errors].
  intros ?. apply ap_nonempty;
    [done|intros ?; apply Field_required_nonempty, validate_bool_errors].
Qed.

Lemma validate_FeatureFlagsRolloutInfo_nonempty v errors :
  validate_FeatureFlagsRolloutInfo v = inl errors → errors ≠ [].
Proof.
  destruct v as [| | | |d|]; simpl; try (by intros [= <-]).
  apply new_FeatureFlagsRolloutInfo_nonempty.
Qed.

(** X17. When building a response fails, at least one error is
    reported; every error names, first in its location, the field of the
    response it is about; and the error [missing] is reported for
    [flags] (for [rollout_info]) exactly when that key was left out. *)
Theorem new_FeatureFlagsResponse_errors (data : gmap string pyval) errors :
  new_FeatureFlagsResponse data = inl errors →
  errors ≠ []
  ∧ (∀ e, e ∈ errors →
       ∃ field rest, loc e = field :: rest
                     ∧ field ∈ ["flags"; "user_id"; "rollout_info"])
  ∧ (mkError ["flags"] missing ∈ errors ↔ data !! "flags" = None)
  ∧ (mkError ["rollout_info"] missing ∈ errors ↔ data !! "rollout_info" = None).
Proof.
  intros Hnew.
  assert (errors_of (new_FeatureFlagsResponse data) = errors) as Herrors
    by (by rewrite Hnew).
  unfold new_FeatureFlagsResponse in Herrors. rewrite !errors_of_ap in Herrors.
  simpl in Herrors.
  assert (∀ e, e ∈ errors ↔
            e ∈ errors_of (Field_required "flags" validate_dict_str_bool data)
            ∨ e ∈ errors_of (Field_default "user_id" None validate_optional_str data)
            ∨ e ∈ errors_of
                  (Field_required "rollout_info" validate_FeatureFlagsRolloutInfo data))
    as Hin.
  { intros e. rewrite <-Herrors, !elem_of_app. tauto. }
  split; [|split; [|split]].
  - revert Hnew. unfold new_FeatureFlagsResponse.
    apply ap_nonempty;
      [|intros ?; apply Field_required_nonempty, validate_FeatureFlagsRolloutInfo_nonempty].
    intros ?. apply ap_nonempty.
    + intros ?. apply ap_nonempty; [done|].
      intros ?; apply Field_required_nonempty, validate_dict_str_bool_errors.
    + intros e'. unfold Field_default. destruct (data !! "user_id") as [v|]; [|done].
      destruct v; simpl; by intros [= <-].
  - intros e He. apply Hin in He as [He | [He | He]].
    + apply Field_required_errors in He as [[_ ->] | (v & e0 & _ & _ & ->)];
        eexists _, _; (split; [done|]); rewrite !elem_of_cons; auto.
    + apply Field_default_errors in He as (v & e0 & _ & _ & ->).
      eexists _, _; (split; [done|]); rewrite !elem_of_cons; auto.
    + apply Field_required_errors in He as [[_ ->] | (v & e0 & _ & _ & ->)];
        eexists _, _; (split; [done|]); rewrite !elem_of_cons; auto.
  - rewrite Hin. split.
    + intros [He | [He | He]].
      * apply Field_required_errors in He as [[? _] | (v & e0 & _ & He0 & [= Hloc Htype])];
          [done|].
        by apply validate_dict_str_bool_error_type in He0.
      * by apply Field_default_errors in He as (v & e0 & _ & _ & [=]).
      * by apply Field_required_errors in He as [[_ [=]] | (v & e0 & _ & _ & [=])].
    + intros Hmissing. left. unfold Field_required. rewrite Hmissing. simpl.
      by apply list_elem_of_singleton.
  - rewrite Hin. split.
    + intros [He | [He | He]].
      * by apply Field_required_errors in He as [[_ [=]] | (v & e0 & _ & _ & [=])].
      * by apply Field_default_errors in He as (v & e0 & _ & _ & [=]).
      * apply Field_required_errors in He as [[? _] | (v & e0 & _ & He0 & [= Hloc Htype])];
          [done|].
        by apply validate_FeatureFlagsRolloutInfo_error in He0 as [?|?].
    + intros Hmissing. right; right. unfold Field_required. rewrite Hmissing. simpl.
      by apply list_elem_of_singleton.
Qed.

End FeatureFlagsMore.

(** ** The failing hosts at work *)

Section MoreRuns.

Import TestHost FailingHosts.






Lemma extract_icon_silent_on_any_ImportError_witness :
  ∃ w', extract_icon host_late_import safari "/icon.png" None w0 = (Ret false, w')
        ∧ stderr w' = stderr w0 ∧ stdout w' = stdout w0.
Proof.
  apply (extract_icon_silent_on_any_ImportError host_late_import
           safari "/icon.png" None w0 late_ImportError); [|reflexivity].
  by apply (during_iconForFile host_late_import safari "/icon.png" 64%Z ()).
Defined.


Lemma main_rejects_size_with_other_characters_witness :
  ∃ e, exn_class e = ValueError
       ∧ main host 4300 repr ["extract-icon.py"; safari; "/icon.png"; "64.0"] w0
         = (Uncaught e, w0).
Proof.
  apply (main_rejects_size_with_other_characters host 4300 repr
           ["extract-icon.py"; safari; "/icon.png"; "64.0"] w0 "."%char);
    [simpl; lia | | reflexivity].
  simpl. apply elem_of_cons. right. apply elem_of_cons. right. by left.
Defined.

Lemma new_FeatureFlagsResponse_errors_witness :
  [FeatureFlags.mkError ["flags"] FeatureFlags.missing] ≠ []
  ∧ (∀ e, e ∈ [FeatureFlags.mkError ["flags"] FeatureFlags.missing] →
       ∃ field rest, FeatureFlags.loc e = field :: rest
                     ∧ field ∈ ["flags"; "user_id"; "rollout_info"])
  ∧ (FeatureFlags.mkError ["flags"] FeatureFlags.missing
       ∈ [FeatureFlags.mkError ["flags"] FeatureFlags.missing]
     ↔ delete "flags" FeatureFlags.example_data !! "flags" = None)
  ∧ (FeatureFlags.mkError ["rollout_info"] FeatureFlags.missing
       ∈ [FeatureFlags.mkError ["flags"] FeatureFlags.missing]
     ↔ delete "flags" FeatureFlags.example_data !! "rollout_info" = None).
Proof.
  apply (new_FeatureFlagsResponse_errors (delete "flags" FeatureFlags.example_data)).
  vm_compute. reflexivity.
Defined.

End MoreRuns.

(** * With signals, failing prints and a failing close *)

(** ** [extract_icon] *)

Section FullFacts.

Context {NSWorkspace NSImage NSData NSBitmapImageRep : Type}.
Variable p : @Full.Process NSWorkspace NSImage NSData NSBitmapImageRep.

Ltac thrown := apply Full.run_thrown; simpl; eauto.

Lemma Full_extract_icon_body_run app_path output_path size w :
  Full.body_run p app_path output_path size w
    (Full.extract_icon_body p app_path output_path size w).1
    (Full.extract_icon_body p app_path output_path size w).2.
Proof.
  unfold Full.extract_icon_body, Full.and_then, Full.step, from_AppKit_import,
    call, ret, raise, Full.ok.
  destruct (Full.interrupt p Full.AtImport); [by thrown|].
  destruct (import_AppKit (Full.host p)) as [e|] eqn:Himport; simpl; [by thrown|].
  destruct (Full.interrupt p Full.AtSharedWorkspace); [by thrown|].
  destruct (sharedWorkspace (Full.host p)) as [ws|e] eqn:Hws; simpl; [|by thrown].
  destruct (Full.interrupt p Full.AtIconForFile); [by thrown|].
  destruct (iconForFile_ (Full.host p) ws app_path) as [[icon0|]|e] eqn:Hicon; simpl;
    [|by apply Full.run_no_icon|by thrown].
  destruct (Full.interrupt p Full.AtSetSize); [by thrown|].
  destruct (setSize_ (Full.host p) icon0 (size, size)) as [icon|e] eqn:Hset; simpl;
    [|by thrown].
  destruct (Full.interrupt p Full.AtTIFFRepresentation); [by thrown|].
  destruct (TIFFRepresentation (Full.host p) icon) as [tiff|e] eqn:Htiff; simpl;
    [|by thrown].
  destruct (Full.interrupt p Full.AtImageRepWithData); [by thrown|].
  destruct (imageRepWithData_ (Full.host p) tiff) as [[rep|]|e] eqn:Hrep; simpl;
    [| |by thrown].
  2: { destruct (Full.interrupt p Full.AtRepresentation); by thrown. }
  destruct (Full.interrupt p Full.AtRepresentation); [by thrown|].
  unfold call.
  destruct (representationUsingType_properties_ (Full.host p) rep NSBitmapImageFileTypePNG)
    as [png_data|e] eqn:Hpng; simpl; [|by thrown].
  assert (encoded (Full.host p) app_path size png_data) as Hencoded.
  { exists icon, tiff, rep. repeat split; try done. exists icon0. repeat split; eauto. }
  unfold Full.with_open, Full.step, open_.
  destruct (Full.interrupt p Full.AtOpen); [by thrown|].
  destruct (open_wb (Full.host p) output_path) as [e|] eqn:Hopen; simpl; [by thrown|].
  destruct (Full.interrupt p Full.AtWrite) as [b|].
  { destruct (Full.closing p output_path) as [[n t]|]; by thrown. }
  unfold f_write.
  destruct png_data as [png|]; simpl.
  - rewrite lookup_insert_eq; simpl.
    destruct (write_all (Full.host p) output_path png) as [[n e]|] eqn:Hwrite; simpl.
    + destruct (Full.closing p output_path) as [[n' t]|]; by thrown.
    + destruct (Full.closing p output_path) as [[n' t]|] eqn:Hclose; simpl.
      * by thrown.
      * replace (log_write _ _ (set_fs _ (set_fs _ w)))
          with (log_write output_path png (set_fs (<[output_path := png]>) w))
          by (unfold log_write, set_fs; simpl; by rewrite insert_insert_eq).
        by apply Full.run_written.
  - destruct (Full.closing p output_path) as [[n' t]|]; by thrown.
Qed.

Lemma Full_extract_icon_unfold app_path output_path size w :
  Full.extract_icon p app_path output_path size w =
    match Full.extract_icon_body p app_path output_path (default 64%Z size) w with
    | (Full.Ok b, w') => (Full.Ok b, w')
    | (Full.Throw t, w') =>
        if Full.caught_by ImportError t then (Full.Ok false, w')
        else if Full.caught_by Exception t then Full.print_error p t w'
        else (Full.Throw t, w')
    end.
Proof.
  unfold Full.extract_icon, Full.try_except.
  destruct (Full.extract_icon_body _ _ _ _ _) as [[b|t] w']; [reflexivity|].
  simpl. by repeat case_match.
Qed.

Lemma Full_extract_icon_body_no_icon app_path output_path size w ws :
  Full.interrupt p Full.AtImport = None →
  Full.interrupt p Full.AtSharedWorkspace = None →
  Full.interrupt p Full.AtIconForFile = None →
  import_AppKit (Full.host p) = None →
  sharedWorkspace (Full.host p) = Ret ws →
  iconForFile_ (Full.host p) ws app_path = Ret None →
  Full.extract_icon_body p app_path output_path size w = (Full.Ok false, w).
Proof.
  intros H1 H2 H3 Himport Hws Hicon.
  unfold Full.extract_icon_body, Full.and_then, Full.step, from_AppKit_import, call.
  by rewrite H1, Himport, H2, Hws, H3, Hicon.
Qed.

Lemma Full_extract_icon_body_import_raises app_path output_path size w e :
  Full.interrupt p Full.AtImport = None →
  import_AppKit (Full.host p) = Some e →
  Full.extract_icon_body p app_path output_path size w = (Full.Throw (Full.Exc e), w).
Proof.
  intros H1 Himport.
  unfold Full.extract_icon_body, Full.and_then, Full.step, from_AppKit_import.
  by rewrite H1, Himport.
Qed.

(** C1, as amended.  When [extract_icon] returns, the boolean is [True]
    exactly when the write of the PNG data to [output_path] completed
    and the file closed without an error (the file then holds the
    data); it is [False] when the lookup found no icon, when the import
    raised an [ImportError], and when the body raised an [Exception]
    and the diagnostic could be printed.  What reaches the caller is
    never an [Exception] of the body: it derives from [BaseException]
    only, or was raised by the [print] of the diagnostic. *)
Theorem extract_icon_returns_or_is_interrupted app_path output_path size w :
  let r := Full.extract_icon p app_path output_path size w in
  (r.1 = Full.Ok true
   ↔ ∃ png, written r.2 = written w ++ [(output_path, png)]
            ∧ Full.closing p output_path = None)
  ∧ (r.1 = Full.Ok true →
     ∃ png, written r.2 = written w ++ [(output_path, png)]
            ∧ fs r.2 !! output_path = Some png)
  ∧ (∀ t, r.1 = Full.Throw t →
       Full.caught_by Exception t = false
       ∨ ∃ line, Full.stderr_print p line = Some t)
  ∧ ((∃ ws, Full.interrupt p Full.AtImport = None
            ∧ Full.interrupt p Full.AtSharedWorkspace = None
            ∧ Full.interrupt p Full.AtIconForFile = None
            ∧ import_AppKit (Full.host p) = None
            ∧ sharedWorkspace (Full.host p) = Ret ws
            ∧ iconForFile_ (Full.host p) ws app_path = Ret None) →
     r.1 = Full.Ok false)
  ∧ ((∃ e, Full.interrupt p Full.AtImport = None
           ∧ import_AppKit (Full.host p) = Some e
           ∧ isinstance e ImportError = true) →
     r.1 = Full.Ok false)
  ∧ (∀ e w1,
       Full.extract_icon_body p app_path output_path (default 64%Z size) w
       = (Full.Throw (Full.Exc e), w1) →
       isinstance e ImportError = true
       ∨ Full.stderr_print p ("Error: " +:+ exn_str e) = None →
       r.1 = Full.Ok false).
Proof.
  intros r. subst r.
  pose proof (Full_extract_icon_body_run app_path output_path (default 64%Z size) w)
    as Hrun.
  rewrite Full_extract_icon_unfold.
  destruct (Full.extract_icon_body p app_path output_path (default 64%Z size) w)
    as [r w1] eqn:Hbody; simpl in Hrun.
  inversion Hrun as [png Henc Hopen Hwrite Hclose Hr Hw | Hr Hw
                    | t w' Hout Herr Hwritten Hr Hw]; subst.
  - simpl. repeat split.
    + intros _. by exists png.
    + intros _. exists png. split; [done|]. apply lookup_insert_eq.
    + done.
    + intros (ws & H1 & H2 & H3 & Himport & Hws & Hicon).
      rewrite (Full_extract_icon_body_no_icon _ _ _ _ ws) in Hbody by done.
      congruence.
    + intros (e & H1 & Himport & _).
      rewrite (Full_extract_icon_body_import_raises _ _ _ _ e) in Hbody by done.
      congruence.
    + intros e w' [=].
  - simpl. repeat split; try done.
    intros [png [Hpng _]]. by apply not_written_twice in Hpng.
  - assert (∀ w2 r2,
              (if Full.caught_by ImportError t then (Full.Ok false, w1)
               else if Full.caught_by Exception t then Full.print_error p t w1
               else (Full.Throw t, w1)) = (r2, w2) →
              written w2 = written w1 ∧ r2 ≠ Full.Ok true
              ∧ ∀ t', r2 = Full.Throw t' →
                      Full.caught_by Exception t' = false
                      ∨ ∃ line, Full.stderr_print p line = Some t') as Hhandled.
    { intros w2 r2. destruct (Full.caught_by ImportError t).
      { intros [= <- <-]. by repeat split. }
      destruct (Full.caught_by Exception t) eqn:Hexc.
      - unfold Full.print_error.
        destruct (Full.stderr_print p _) as [t'|] eqn:Hprint; intros [= <- <-];
          repeat split; try done.
        intros t'' [= <-]. right. eauto.
      - intros [= <- <-]. repeat split; try done. intros t' [= <-]. by left. }
    destruct (if Full.caught_by ImportError t then _ else _) as [r2 w2] eqn:Hhandler.
    destruct (Hhandled w2 r2 eq_refl) as (Hw2 & Hr2 & Hthrow).
    simpl. repeat split; try done.
    + intros [png [Hpng Hclose]]. rewrite Hw2 in Hpng.
      destruct Hwritten as [Hsame | (png' & n & _ & Hclose')]; [|congruence].
      rewrite Hsame in Hpng. by apply not_written_twice in Hpng.
    + intros (ws & H1 & H2 & H3 & Himport & Hws & Hicon).
      rewrite (Full_extract_icon_body_no_icon _ _ _ _ ws) in Hbody by done.
      congruence.
    + intros (e & H1 & Himport & Hclass).
      rewrite (Full_extract_icon_body_import_raises _ _ _ _ e) in Hbody by done.
      injection Hbody as <- <-. simpl in Hhandler. rewrite Hclass in Hhandler.
      congruence.
    + intros e w' [= -> <-] Hcase. simpl in Hhandler.
      destruct (isinstance e ImportError); [congruence|].
      rewrite isinstance_Exception in Hhandler. unfold Full.print_error in Hhandler.
      simpl in Hhandler. destruct Hcase as [?|Hprint]; [done|].
      rewrite Hprint in Hhandler. congruence.
Qed.


End FullFacts.

(** ** The command line *)

Section FullMainFacts.

Context {NSWorkspace NSImage NSData NSBitmapImageRep : Type}.
Variable p : @Full.Process NSWorkspace NSImage NSData NSBitmapImageRep.
Variable int_max_str_digits : nat.
Variable repr : string → string.

(** What [extract_icon] leaves of the state, whatever it returns. *)
Lemma Full_extract_icon_run app_path output_path size w :
  let r := Full.extract_icon p app_path output_path size w in
  stdout r.2 = stdout w
  ∧ (r.1 = Full.Ok true →
     stderr r.2 = stderr w
     ∧ Full.closing p output_path = None
     ∧ ∃ png, encoded (Full.host p) app_path (default 64%Z size) (Some png)
              ∧ written r.2 = written w ++ [(output_path, png)]
              ∧ fs r.2 !! output_path = Some png)
  ∧ (r.1 ≠ Full.Ok true →
     written r.2 = written w
     ∨ ∃ png n t, written r.2 = written w ++ [(output_path, png)]
                  ∧ Full.closing p output_path = Some (n, t))
  ∧ (∀ t, r.1 = Full.Throw t →
       Full.caught_by Exception t = false
       ∨ ∃ line, Full.stderr_print p line = Some t).
Proof.
  intros r. subst r.
  pose proof (Full_extract_icon_body_run p app_path output_path (default 64%Z size) w)
    as Hrun.
  rewrite Full_extract_icon_unfold.
  destruct (Full.extract_icon_body p app_path output_path (default 64%Z size) w)
    as [r w1]; simpl in Hrun.
  inversion Hrun as [png Henc Hopen Hwrite Hclose Hr Hw | Hr Hw
                    | t w' Hout Herr Hwritten Hr Hw]; subst; simpl.
  - repeat split; try done. exists png. repeat split; try done.
    apply lookup_insert_eq.
  - repeat split; try done. by left.
  - assert (∃ r2 w2,
              (if Full.caught_by ImportError t then (Full.Ok false, w1)
               else if Full.caught_by Exception t then Full.print_error p t w1
               else (Full.Throw t, w1)) = (r2, w2)
              ∧ stdout w2 = stdout w1 ∧ r2 ≠ Full.Ok true ∧ written w2 = written w1
              ∧ ∀ t', r2 = Full.Throw t' →
                      Full.caught_by Exception t' = false
                      ∨ ∃ line, Full.stderr_print p line = Some t')
      as (r2 & w2 & -> & Hstdout & Hne & Hwr & Hthrow).
    { destruct (Full.caught_by ImportError t); [by eexists _, _|].
      destruct (Full.caught_by Exception t) eqn:Hexc.
      - unfold Full.print_error.
        destruct (Full.stderr_print p _) as [t'|] eqn:Hprint; eexists _, _;
          (split; [done|]); repeat split; try done.
        intros t'' [= <-]. right. eauto.
      - eexists _, _. split; [done|]. repeat split; try done.
        intros t' [= <-]. by left. }
    simpl. repeat split; try done; [by rewrite Hstdout|].
    intros _. rewrite Hwr.
    destruct Hwritten as [?|(png & n & ? & ?)]; [by left|right; eauto].
Qed.




(** Without signals and with a silent close the body runs as the body
    defined before [Full]. *)
Lemma Full_extract_icon_body_quiet app_path output_path size w :
  (∀ st, Full.interrupt p st = None) →
  Full.closing p output_path = None →
  Full.extract_icon_body p app_path output_path size w
  = match extract_icon_body (Full.host p) app_path output_path size w with
    | (Ret b, w') => (Full.Ok b, w')
    | (Raise e, w') => (Full.Throw (Full.Exc e), w')
    end.
Proof.
  intros Hquiet Hclose.
  unfold Full.extract_icon_body, extract_icon_body, Full.and_then, bind, Full.step,
    from_AppKit_import, call, ret, raise, Full.ok.
  rewrite !Hquiet.
  destruct (import_AppKit (Full.host p)); simpl; [done|].
  destruct (sharedWorkspace (Full.host p)) as [ws|]; simpl; [|done].
  destruct (iconForFile_ (Full.host p) ws app_path) as [[icon0|]|]; simpl; try done.
  destruct (setSize_ (Full.host p) icon0 (size, size)) as [icon|]; simpl; [|done].
  destruct (TIFFRepresentation (Full.host p) icon) as [tiff|]; simpl; [|done].
  destruct (imageRepWithData_ (Full.host p) tiff) as [[rep|]|]; simpl; try done.
  unfold call.
  destruct (representationUsingType_properties_ _ rep _) as [png_data|]; simpl; [|done].
  unfold Full.with_open, with_open, bind, Full.step. rewrite !Hquiet.
  destruct (open_ (Full.host p) output_path w) as [[f|e] w1] eqn:Hopen; simpl; [|done].
  assert (f = output_path) as ->.
  { unfold open_ in Hopen. destruct (open_wb _ _); by simplify_eq. }
  rewrite Hclose.
  by destruct (f_write (Full.host p) output_path png_data w1) as [[[]|e] w2].
Qed.

(** On a host that meets the platform contract the encoding goes
    through, with PNG data of the size asked for. *)
Lemma AppKitContract_encoded (C : AppKitContract (Full.host p)) app_path size :
  bundle C app_path → (0 < size)%Z →
  ∃ png, encoded (Full.host p) app_path size (Some png)
         ∧ png_image C png (size, size).
Proof.
  intros Hbundle Hsize.
  destruct (iconForFile_ok _ C app_path Hbundle) as [icon0 Hicon].
  destruct (setSize_ok _ C icon0 _ _ Hsize Hsize) as (icon & Hset & Hisize).
  destruct (TIFFRepresentation_ok _ C icon) as (d & Htiff & Hdsize).
  destruct (imageRepWithData_ok _ C d) as (rep & Hrep & Hrsize).
  destruct (representationUsingType_ok _ C rep) as (png & Hpng & Himage).
  exists png. split; [|by rewrite Hrsize, Hdsize, Hisize in Himage].
  exists icon, (Some d), rep. repeat split; try done.
  exists icon0. repeat split; try done.
  - apply (import_ok _ C).
  - exists (workspace _ C). split; [apply (sharedWorkspace_ok _ C)|done].
Qed.

Lemma Full_extract_icon_encoded app_path output_path size png w :
  (∀ st, Full.interrupt p st = None) →
  Full.closing p output_path = None →
  encoded (Full.host p) app_path (default 64%Z size) (Some png) →
  writable (Full.host p) output_path →
  Full.extract_icon p app_path output_path size w
  = (Full.Ok true, log_write output_path png (set_fs (<[output_path := png]>) w)).
Proof.
  intros Hquiet Hclose Hencoded [Hopen Hwrite].
  rewrite Full_extract_icon_unfold, Full_extract_icon_body_quiet by done.
  rewrite (extract_icon_body_encoded _ _ _ _ _ _ Hencoded).
  unfold with_open, bind, open_, f_write. rewrite Hopen. simpl.
  rewrite lookup_insert_eq, Hwrite. simpl.
  unfold log_write, set_fs. simpl. by rewrite insert_insert_eq.
Qed.

(** C7. With [size] left out, 64 is what the resize is called with and
    what the output shows.  On a host that meets the platform contract,
    with no signal and a silent close, for a bundle and a writable
    output path: [extract_icon] called without [size] returns [True]
    and leaves at [output_path] a PNG image of 64 by 64 pixels; so does
    the script run with exactly two arguments after its name, whatever
    becomes of its [print].  On any host, a call without [size] that
    returns [True] has written the PNG data that the lookup, the resize
    to (64, 64) and the encoding gave. *)
Theorem size_64_when_omitted (C : AppKitContract (Full.host p))
    script app_path output_path w :
  (∀ st, Full.interrupt p st = None) →
  Full.closing p output_path = None →
  bundle C app_path →
  writable (Full.host p) output_path →
  (∃ w' png,
     Full.extract_icon p app_path output_path None w = (Full.Ok true, w')
     ∧ fs w' !! output_path = Some png
     ∧ png_image C png (64, 64)%Z)
  ∧ (∃ png,
       fs (Full.main p int_max_str_digits repr [script; app_path; output_path] w).2
         !! output_path = Some png
       ∧ png_image C png (64, 64)%Z)
  ∧ (∀ w0 w',
       Full.extract_icon p app_path output_path None w0 = (Full.Ok true, w') →
       ∃ icon0 icon png,
         resolved (Full.host p) app_path icon0
         ∧ setSize_ (Full.host p) icon0 (64, 64)%Z = Ret icon
         ∧ encoded (Full.host p) app_path 64%Z (Some png)
         ∧ fs w' !! output_path = Some png).
Proof.
  intros Hquiet Hclose Hbundle Hwritable.
  destruct (AppKitContract_encoded C app_path 64%Z Hbundle) as (png & Hencoded & Hpng);
    [lia|].
  pose proof (Full_extract_icon_encoded app_path output_path None png w
                Hquiet Hclose Hencoded Hwritable) as Hnone.
  pose proof (Full_extract_icon_encoded app_path output_path (Some 64%Z) png w
                Hquiet Hclose Hencoded Hwritable) as Hsome.
  split; [|split].
  - eexists _, png. split; [exact Hnone|]. split; [apply lookup_insert_eq|done].
  - exists png. split; [|done].
    change (Full.main p int_max_str_digits repr [script; app_path; output_path] w)
      with (Full.report p (Full.extract_icon p app_path output_path (Some 64%Z) w)).
    rewrite Hsome. simpl.
    destruct (Full.stdout_print p "OK"); simpl; apply lookup_insert_eq.
  - intros w0 w' Hextract.
    destruct (Full_extract_icon_run app_path output_path None w0) as (_ & Htrue & _ & _).
    rewrite Hextract in Htrue. simpl in Htrue.
    destruct (Htrue eq_refl) as (_ & _ & png' & Hencoded' & _ & Hfs).
    pose proof Hencoded' as (icon & tiff & rep & (icon0 & Hresolved & Hset) & _).
    exists icon0, icon, png'. split; [done|]. split; [done|]. by split.
Qed.

(** A quiet process runs [extract_icon] as defined before [Full]: what
    is proved there holds here whenever no signal arrives, the file
    closes in silence and the prints get out. *)
Lemma Full_extract_icon_quiet app_path output_path size w :
  Full.quiet p →
  Full.extract_icon p app_path output_path size w
  = match extract_icon (Full.host p) app_path output_path size w with
    | (Ret b, w') => (Full.Ok b, w')
    | (Raise e, w') => (Full.Throw (Full.Exc e), w')
    end.
Proof.
  intros (Hquiet & Hclose & Hprint & _).
  rewrite Full_extract_icon_unfold, extract_icon_unfold,
    Full_extract_icon_body_quiet by done.
  destruct (extract_icon_body (Full.host p) app_path output_path (default 64%Z size) w)
    as [[b|e] w1]; [done|]. simpl.
  destruct (isinstance e ImportError); [done|].
  rewrite isinstance_Exception. unfold Full.print_error. simpl.
  by rewrite Hprint.
Qed.




End FullMainFacts.

(** ** The processes at work *)

Section ProcessRuns.

Import TestHost FailingHosts TestProcess.

(** C1, as the specification states it, fails: a [KeyboardInterrupt]
    raised while the lookup runs is caught by neither [except] clause
    and reaches the caller of [extract_icon]. *)
Lemma extract_icon_KeyboardInterrupt_counterexample :
  Full.extract_icon interrupted_lookup safari "/icon.png" None w0
  = (Full.Throw (Full.NonExc Full.KeyboardInterrupt), w0).
Proof. reflexivity. Qed.




Lemma size_64_when_omitted_witness :
  (∃ w' png,
     Full.extract_icon (quiet_on host) safari "/icon.png" None w0 = (Full.Ok true, w')
     ∧ fs w' !! "/icon.png" = Some png
     ∧ png = png_of_size (64, 64)%Z)
  ∧ (∃ png,
       fs (Full.main (quiet_on host) 4300 repr
             ["extract-icon.py"; safari; "/icon.png"] w0).2 !! "/icon.png" = Some png
       ∧ png = png_of_size (64, 64)%Z).
Proof.
  destruct (size_64_when_omitted (quiet_on host) 4300 repr host_contract
              "extract-icon.py" safari "/icon.png" w0) as (H1 & H2 & _);
    [done | done | reflexivity | by split |].
  by split.
Defined.

End ProcessRuns.
